(** * ZMapSDK: the scan-configuration model ([zmapsdk/config.py])

    A shallow embedding of the [ZMapScanConfig] dataclass: its fields, the
    validation run by [__post_init__], the dictionary and JSON encoders, the
    two decoders and the two file operations, with the handler of the
    synchronous scan of [zmapsdk/api.py], followed by their properties.

    Conventions of the embedding.
    - Python is dynamically typed: a field holds any object, whatever its
      annotation says.  Objects are the values of [pyval]: [None], booleans,
      integers, floats, strings, [bytes], lists, tuples and dictionaries
      whose keys are [None], booleans, integers or strings.
    - A [str] is a [string]; each [ascii] is the code point of that number,
      so strings range over the code points below 256.
    - A [float] is an IEEE-754 datum ([spec_float]); an [int] is a [Z].
    - Exceptions are values of [exn]; a computation that may raise has type
      [result A], with [inl e] for "raises e".
    - The message of an exception is kept as the list of the pieces of the
      f-string that built it ([frag]): the literal text and the objects of
      its replacement fields.  The f-string itself is evaluated
      ([fstring]): formatting an int beyond the digit bound raises
      [ValueError] before any message exists.
    - CPython's bound on int/str conversions ([sys.get_int_max_str_digits()],
      4300 by default since 3.11, 0 for "no bound" and for older versions) is
      the section variable [int_max_str_digits].  The exhaustion of the
      stack or of the memory by large objects is not modelled. *)

From Stdlib Require Import ZArith List String Ascii Bool Lia Arith.
From Stdlib Require Import Floats.SpecFloat DecimalString Permutation.
Import ListNotations.

Local Open Scope string_scope.
Local Open Scope list_scope.
Local Open Scope Z_scope.

(** ** Python objects *)

(** Hashable objects used as dictionary keys. *)
Inductive pykey : Type :=
| KNone
| KBool (b : bool)
| KInt (z : Z)
| KStr (s : string).

#[local] Set Warnings "-register-all".
Inductive pyval : Type :=
| PNone
| PBool (b : bool)
| PInt (z : Z)
| PFloat (f : spec_float)
| PStr (s : string)
| PBytes (b : string)
| PList (l : list pyval)
| PTuple (l : list pyval)
| PDict (d : list (pykey * pyval)).

(** ** Exceptions and the error monad *)

(** The pieces of an f-string: literal text, or the object of a [{...}]
    replacement field. *)
Inductive frag : Type :=
| Lit (s : string)
| Fmt (v : pyval).

(** Modelled from the spec: the class [ZMapConfigError] is declared in
    [zmapsdk/exceptions.py], which is not among the sources; it is the
    configuration error of the specification, and [config.py] builds it from
    one message, which is what the constructor keeps.  [TypeError],
    [ValueError] and [JSONDecodeError] are Python's own. *)
Inductive exn : Type :=
| ZMapConfigError (msg : list frag)
| TypeError
| ValueError
| JSONDecodeError.

Definition result (A : Type) : Type := (exn + A)%type.

Definition ret {A : Type} (a : A) : result A := inr a.
Definition raise {A : Type} (e : exn) : result A := inl e.
Definition bind {A B : Type} (m : result A) (k : A -> result B) : result B :=
  match m with
  | inl e => inl e
  | inr a => k a
  end.

Notation "x <- m ;; k" := (bind m (fun x => k))
  (at level 61, m at next level, right associativity).
Notation "m ;;; k" := (bind m (fun _ => k))
  (at level 61, right associativity).

(** ** Built-in operations on objects *)

(** [x is not None] *)
Definition is_not_None (x : pyval) : bool :=
  match x with
  | PNone => false
  | _ => true
  end.

(** [isinstance(x, str)] *)
Definition isinstance_str (x : pyval) : bool :=
  match x with
  | PStr _ => true
  | _ => false
  end.

(** [isinstance(x, int)]; [bool] is a subclass of [int]. *)
Definition isinstance_int (x : pyval) : bool :=
  match x with
  | PInt _ | PBool _ => true
  | _ => false
  end.

(** The exact value of a finite float is [sm * 2^e]. *)
Definition signed_mantissa (s : bool) (m : positive) : Z :=
  if s then Z.neg m else Z.pos m.

(** [z <= f] and [f <= z] between an int and a float: Python compares the
    exact values. *)
Definition Z_le_float (z : Z) (f : spec_float) : bool :=
  match f with
  | S754_zero _ => z <=? 0
  | S754_infinity s => negb s
  | S754_nan => false
  | S754_finite s m e =>
      if 0 <=? e then z <=? signed_mantissa s m * 2 ^ e
      else z * 2 ^ (- e) <=? signed_mantissa s m
  end.

Definition float_le_Z (f : spec_float) (z : Z) : bool :=
  match f with
  | S754_zero _ => 0 <=? z
  | S754_infinity s => s
  | S754_nan => false
  | S754_finite s m e =>
      if 0 <=? e then signed_mantissa s m * 2 ^ e <=? z
      else signed_mantissa s m <=? z * 2 ^ (- e)
  end.

(** [z <= x] with an int on the left. *)
Definition int_le (z : Z) (x : pyval) : result bool :=
  match x with
  | PInt n => ret (z <=? n)
  | PBool b => ret (z <=? Z.b2z b)
  | PFloat f => ret (Z_le_float z f)
  | _ => raise TypeError
  end.

(** [x <= z] with an int on the right. *)
Definition le_int (x : pyval) (z : Z) : result bool :=
  match x with
  | PInt n => ret (n <=? z)
  | PBool b => ret (Z.b2z b <=? z)
  | PFloat f => ret (float_le_Z f z)
  | _ => raise TypeError
  end.

(** The chained comparison [lo <= x <= hi]: the second comparison runs only
    when the first is true. *)
Definition chain_le (lo : Z) (x : pyval) (hi : Z) : result bool :=
  b <- int_le lo x ;;
  if b then le_int x hi else ret false.

(** ** [str] methods *)

Definition code (c : ascii) : nat := nat_of_ascii c.

Definition LF : ascii := ascii_of_nat 10.

(** [sub in s] for a one-character [sub]. *)
Fixpoint str_contains (c : ascii) (s : string) : bool :=
  match s with
  | EmptyString => false
  | String a s' => Ascii.eqb a c || str_contains c s'
  end.

(** [s.split(sep)] for a one-character [sep]: the list is never empty. *)
Fixpoint split (sep : ascii) (s : string) : list string :=
  match s with
  | EmptyString => [EmptyString]
  | String a s' =>
      if Ascii.eqb a sep then EmptyString :: split sep s'
      else match split sep s' with
           | p :: ps => String a p :: ps
           | [] => [String a EmptyString]
           end
  end.

(** [s.endswith(suffix)] for a one-character [suffix]. *)
Fixpoint endswith (s : string) (c : ascii) : bool :=
  match s with
  | EmptyString => false
  | String a EmptyString => Ascii.eqb a c
  | String _ s' => endswith s' c
  end.

Fixpoint str_forallb (p : ascii -> bool) (s : string) : bool :=
  match s with
  | EmptyString => true
  | String a s' => p a && str_forallb p s'
  end.

(** The ASCII digits ['0'..'9']. *)
Definition is_ascii_digit (c : ascii) : bool :=
  (48 <=? code c)%nat && (code c <=? 57)%nat.

(** Characters with the Unicode property [Numeric_Type=Digit] or [Decimal]:
    below 256 these are the ASCII digits and the superscripts two, three and
    one (178, 179, 185). *)
Definition unicode_isdigit (c : ascii) : bool :=
  is_ascii_digit c
  || (code c =? 178)%nat || (code c =? 179)%nat || (code c =? 185)%nat.

(** [s.isdigit()]: at least one character, all of them digits. *)
Definition isdigit (s : string) : bool :=
  match s with
  | EmptyString => false
  | _ => str_forallb unicode_isdigit s
  end.

(** ** [int(s)] on a string, base 10 *)

(** [Py_UNICODE_ISSPACE] on the code points from 127 up: below 256 only NEL
    (133) and NBSP (160). *)
Definition unicode_isspace_high (c : ascii) : bool :=
  (code c =? 133)%nat || (code c =? 160)%nat.

(** [Py_ISSPACE]: the C-locale white space. *)
Definition Py_ISSPACE (c : ascii) : bool :=
  ((9 <=? code c)%nat && (code c <=? 13)%nat) || (code c =? 32)%nat.

Definition is_ascii_str (s : string) : bool :=
  str_forallb (fun c => (code c <? 128)%nat) s.

(** [_PyUnicode_TransformDecimalAndSpaceToASCII]: an ASCII string is kept;
    otherwise white space becomes a blank, and the first character that is
    neither ASCII, white space nor a decimal digit becomes ['?'] and ends the
    buffer.  No code point in 128..255 is a decimal digit. *)
Fixpoint transform_chars (s : string) : string :=
  match s with
  | EmptyString => EmptyString
  | String c s' =>
      if (code c <? 127)%nat then String c (transform_chars s')
      else if unicode_isspace_high c then String " " (transform_chars s')
      else "?"
  end.

Definition transform_decimal_and_space (s : string) : string :=
  if is_ascii_str s then s else transform_chars s.

Fixpoint skip_spaces (s : string) : string :=
  match s with
  | String c s' => if Py_ISSPACE c then skip_spaces s' else s
  | EmptyString => s
  end.

Definition digit_value (c : ascii) : Z := Z.of_nat (code c) - 48.

(** The scanning loop of [PyLong_FromString]: digits and single underscores.
    [prev_us] tells whether the previous character was an underscore; the
    result is the accumulated value, the number of digits, and the rest of
    the buffer.  [None]: two underscores in a row, or one at the end. *)
Fixpoint scan_digits (s : string) (prev_us : bool) (acc : Z) (digits : nat)
  : option (Z * nat * string) :=
  match s with
  | String c s' =>
      if is_ascii_digit c then
        scan_digits s' false (acc * 10 + digit_value c) (S digits)
      else if Ascii.eqb c "_" then
        if prev_us then None else scan_digits s' true acc digits
      else if prev_us then None else Some (acc, digits, s)
  | EmptyString => if prev_us then None else Some (acc, digits, s)
  end.

Definition _PY_LONG_MAX_STR_DIGITS_THRESHOLD : nat := 640.

(** The test guarding both conversion directions: more than 640 digits, a
    bound that is set, and more digits than the bound. *)
Definition exceeds_limit (max_str_digits digits : nat) : bool :=
  (_PY_LONG_MAX_STR_DIGITS_THRESHOLD <? digits)%nat
  && (0 <? max_str_digits)%nat && (max_str_digits <? digits)%nat.

(** An optional sign in front: [true] for a minus. *)
Definition strip_sign (s : string) : bool * string :=
  match s with
  | String c s' =>
      if Ascii.eqb c "+" then (false, s')
      else if Ascii.eqb c "-" then (true, s')
      else (false, s)
  | EmptyString => (false, s)
  end.

Definition starts_with (c : ascii) (s : string) : bool :=
  match s with
  | String a _ => Ascii.eqb a c
  | EmptyString => false
  end.

(** ** Dictionaries *)

(** Two keys are the same key when they are equal and hash alike: [True] is
    the key [1] and [False] the key [0]. *)
Definition key_eqb (k1 k2 : pykey) : bool :=
  match k1, k2 with
  | KNone, KNone => true
  | KStr s, KStr t => String.eqb s t
  | KInt a, KInt b => a =? b
  | KBool a, KBool b => Bool.eqb a b
  | KInt a, KBool b | KBool b, KInt a => a =? Z.b2z b
  | _, _ => false
  end.

(** [d[k]] *)
Fixpoint dict_get (d : list (pykey * pyval)) (k : pykey) : option pyval :=
  match d with
  | [] => None
  | (k', v) :: d' => if key_eqb k k' then Some v else dict_get d' k
  end.

(** [d[k] = v]: a key already present keeps its place (and its first
    spelling), a new key goes last. *)
Fixpoint dict_set (d : list (pykey * pyval)) (k : pykey) (v : pyval)
  : list (pykey * pyval) :=
  match d with
  | [] => [(k, v)]
  | (k', v') :: d' =>
      if key_eqb k k' then (k', v) :: d' else (k', v') :: dict_set d' k v
  end.

(** ** JSON documents *)

Inductive json : Type :=
| JNull
| JBool (b : bool)
| JInt (z : Z)
| JFloat (f : spec_float)
| JString (s : string)
| JArray (items : list json)
| JObject (members : list (string * json)).

(** A [str] handed to [json.loads]: either no JSON document at all, or the
    text of one. *)
Inductive json_text : Type :=
| NotJson
| Document (j : json).

(** [str(z)] *)
Definition str_of_Z (z : Z) : string := NilZero.string_of_int (Z.to_int z).

(** The number of decimal digits of [z], sign apart. *)
Definition decimal_digits (z : Z) : nat := String.length (str_of_Z (Z.abs z)).

(** ** The fragment of [re] used by the MAC check *)

(** Character classes, concatenation and counted repetition [r{n}]; groups
    do not change what is matched.  Without alternation or a starred item a
    pattern consumes a prefix in at most one way. *)
Inductive regex : Type :=
| Class (p : ascii -> bool)
| Seq (r1 r2 : regex)
| Repeat (n : nat) (r : regex).

Fixpoint times {A : Type} (n : nat) (f : A -> option A) (a : A) : option A :=
  match n with
  | O => Some a
  | S n' => match f a with
            | Some a' => times n' f a'
            | None => None
            end
  end.

(** The rest of the subject after the pattern matched at its start. *)
Fixpoint consume (r : regex) (s : string) : option string :=
  match r with
  | Class p => match s with
               | String a s' => if p a then Some s' else None
               | EmptyString => None
               end
  | Seq r1 r2 => match consume r1 s with
                 | Some s' => consume r2 s'
                 | None => None
                 end
  | Repeat n r' => times n (consume r') s
  end.

(** [$] without [re.MULTILINE]: at the end of the subject, or just before a
    line feed that is its last character. *)
Definition at_dollar (rest : string) : bool :=
  match rest with
  | EmptyString => true
  | String c EmptyString => Ascii.eqb c LF
  | _ => false
  end.

(** [bool(re.match('^' r '$', s))]; [re.match] is anchored at the start. *)
Definition re_match_to_dollar (r : regex) (s : string) : bool :=
  match consume r s with
  | Some rest => at_dollar rest
  | None => false
  end.

Definition in_range (lo hi : ascii) (c : ascii) : bool :=
  (code lo <=? code c)%nat && (code c <=? code hi)%nat.

(** [[0-9A-Fa-f]] *)
Definition is_hex (c : ascii) : bool :=
  in_range "0" "9" c || in_range "A" "F" c || in_range "a" "f" c.

Definition hex_class : regex := Class is_hex.

(** [[:-]] *)
Definition is_sep (c : ascii) : bool :=
  Ascii.eqb c ":" || Ascii.eqb c "-".

Definition sep_class : regex := Class is_sep.

(** [([0-9A-Fa-f]{2}[:-]){5}([0-9A-Fa-f]{2})] *)
Definition mac_pattern : regex :=
  Seq (Repeat 5 (Seq (Repeat 2 hex_class) sep_class)) (Repeat 2 hex_class).

(** ** The dataclass *)

(** One field per dataclass field, in declaration order; the annotations are
    not enforced by Python, so every field holds an object. *)
Record ZMapScanConfig : Type := mkConfig {
  target_port : pyval;
  bandwidth : pyval;
  rate : pyval;
  cooldown_time : pyval;
  interface : pyval;
  source_ip : pyval;
  source_port : pyval;
  gateway_mac : pyval;
  source_mac : pyval;
  target_mac : pyval;
  vpn : pyval;
  max_targets : pyval;
  max_runtime : pyval;
  max_results : pyval;
  probes : pyval;
  retries : pyval;
  dryrun : pyval;
  seed : pyval;
  shards : pyval;
  shard : pyval;
  sender_threads : pyval;
  cores : pyval;
  ignore_invalid_hosts : pyval;
  max_sendto_failures : pyval;
  min_hitrate : pyval;
  notes : pyval;
  user_metadata : pyval
}.

(** The fields with their names, in declaration order: what
    [dataclasses.asdict(self)] returns.  [asdict] copies lists and
    dictionaries; a copy is the same value. *)
Definition asdict (self : ZMapScanConfig) : list (string * pyval) :=
  [ ("target_port", target_port self);
    ("bandwidth", bandwidth self);
    ("rate", rate self);
    ("cooldown_time", cooldown_time self);
    ("interface", interface self);
    ("source_ip", source_ip self);
    ("source_port", source_port self);
    ("gateway_mac", gateway_mac self);
    ("source_mac", source_mac self);
    ("target_mac", target_mac self);
    ("vpn", vpn self);
    ("max_targets", max_targets self);
    ("max_runtime", max_runtime self);
    ("max_results", max_results self);
    ("probes", probes self);
    ("retries", retries self);
    ("dryrun", dryrun self);
    ("seed", seed self);
    ("shards", shards self);
    ("shard", shard self);
    ("sender_threads", sender_threads self);
    ("cores", cores self);
    ("ignore_invalid_hosts", ignore_invalid_hosts self);
    ("max_sendto_failures", max_sendto_failures self);
    ("min_hitrate", min_hitrate self);
    ("notes", notes self);
    ("user_metadata", user_metadata self) ].

Fixpoint assoc {A : Type} (k : string) (l : list (string * A)) : option A :=
  match l with
  | [] => None
  | (k', v) :: l' => if String.eqb k k' then Some v else assoc k l'
  end.

(** [getattr(self, name)] *)
Definition getattr (self : ZMapScanConfig) (name : string) : option pyval :=
  assoc name (asdict self).

(** The value bound to parameter [name]: the keyword argument if it was
    passed, the default otherwise. *)
Definition arg (kwargs : list (string * pyval)) (name : string) (default : pyval)
  : pyval :=
  match assoc name kwargs with
  | Some v => v
  | None => default
  end.

(** The field assignments of the generated [__init__]: every default is
    [None], except [False] for the three flags. *)
Definition assign_fields (kwargs : list (string * pyval)) : ZMapScanConfig :=
  {| target_port := arg kwargs "target_port" PNone;
     bandwidth := arg kwargs "bandwidth" PNone;
     rate := arg kwargs "rate" PNone;
     cooldown_time := arg kwargs "cooldown_time" PNone;
     interface := arg kwargs "interface" PNone;
     source_ip := arg kwargs "source_ip" PNone;
     source_port := arg kwargs "source_port" PNone;
     gateway_mac := arg kwargs "gateway_mac" PNone;
     source_mac := arg kwargs "source_mac" PNone;
     target_mac := arg kwargs "target_mac" PNone;
     vpn := arg kwargs "vpn" (PBool false);
     max_targets := arg kwargs "max_targets" PNone;
     max_runtime := arg kwargs "max_runtime" PNone;
     max_results := arg kwargs "max_results" PNone;
     probes := arg kwargs "probes" PNone;
     retries := arg kwargs "retries" PNone;
     dryrun := arg kwargs "dryrun" (PBool false);
     seed := arg kwargs "seed" PNone;
     shards := arg kwargs "shards" PNone;
     shard := arg kwargs "shard" PNone;
     sender_threads := arg kwargs "sender_threads" PNone;
     cores := arg kwargs "cores" PNone;
     ignore_invalid_hosts := arg kwargs "ignore_invalid_hosts" (PBool false);
     max_sendto_failures := arg kwargs "max_sendto_failures" PNone;
     min_hitrate := arg kwargs "min_hitrate" PNone;
     notes := arg kwargs "notes" PNone;
     user_metadata := arg kwargs "user_metadata" PNone |}.

(** [ZMapScanConfig()] with no argument, before validation. *)
Definition defaults : ZMapScanConfig := assign_fields [].

Definition field_names : list string := map fst (asdict defaults).

Definition is_field (name : string) : bool :=
  existsb (String.eqb name) field_names.

(** ** Equality of objects *)

Definition float_eqb (f g : spec_float) : bool :=
  match f, g with
  | S754_zero _, S754_zero _ => true
  | S754_infinity s, S754_infinity t => Bool.eqb s t
  | S754_finite s m e, S754_finite t n e' =>
      let d := Z.min e e' in
      signed_mantissa s m * 2 ^ (e - d) =? signed_mantissa t n * 2 ^ (e' - d)
  | _, _ => false
  end.

(** [a == b] for two objects that have no float object in common, as an
    object and the one decoded from its JSON text are.  Numbers compare
    across [bool], [int] and [float]; a tuple equals no list; a NaN equals no
    other object.  (CPython's containers test [a is b] before [a == b], so an
    object that holds a NaN still equals itself, and a copy that holds the
    same float object too: identity is not part of a value, and [py_eq] is
    not meant for such pairs.) *)
Fixpoint py_eq (a b : pyval) : bool :=
  match a, b with
  | PNone, PNone => true
  | PStr s, PStr t => String.eqb s t
  | PBool x, PBool y => Bool.eqb x y
  | PInt x, PInt y => x =? y
  | PBool x, PInt y | PInt y, PBool x => Z.b2z x =? y
  | PFloat f, PFloat g => float_eqb f g
  | PFloat f, PInt z | PInt z, PFloat f => Z_le_float z f && float_le_Z f z
  | PFloat f, PBool x | PBool x, PFloat f =>
      Z_le_float (Z.b2z x) f && float_le_Z f (Z.b2z x)
  | PBytes s, PBytes t => String.eqb s t
  | PList l1, PList l2 | PTuple l1, PTuple l2 =>
      (fix each (l1 l2 : list pyval) : bool :=
         match l1, l2 with
         | [], [] => true
         | x :: l1', y :: l2' => py_eq x y && each l1' l2'
         | _, _ => false
         end) l1 l2
  | PDict d1, PDict d2 =>
      (List.length d1 =? List.length d2)%nat
      && (fix each (d1 : list (pykey * pyval)) : bool :=
            match d1 with
            | [] => true
            | (k, v) :: d1' =>
                match dict_get d2 k with
                | Some v' => py_eq v v'
                | None => false
                end && each d1'
            end) d1
  | _, _ => false
  end.



(** ** The annotations of the fields *)

Inductive ty : Type :=
| TInt
| TStr
| TBool
| TFloat
| TDict
| TList (t : ty)
| TUnion (t1 t2 : ty)
| TOptional (t : ty).

(** [v] is an instance of the annotation; a [bool] is an [int], and an
    [int] is accepted where a [float] is announced (PEP 484). *)
Fixpoint has_type (t : ty) (v : pyval) : bool :=
  match t with
  | TInt => isinstance_int v
  | TStr => isinstance_str v
  | TBool => match v with PBool _ => true | _ => false end
  | TFloat => match v with PFloat _ => true | _ => isinstance_int v end
  | TDict => match v with PDict _ => true | _ => false end
  | TList t' => match v with PList l => forallb (has_type t') l | _ => false end
  | TUnion t1 t2 => has_type t1 v || has_type t2 v
  | TOptional t' => negb (is_not_None v) || has_type t' v
  end.

Definition annotations : list (string * ty) :=
  [ ("target_port", TOptional TInt);
    ("bandwidth", TOptional TStr);
    ("rate", TOptional TInt);
    ("cooldown_time", TOptional TInt);
    ("interface", TOptional TStr);
    ("source_ip", TOptional TStr);
    ("source_port", TOptional (TUnion TInt TStr));
    ("gateway_mac", TOptional TStr);
    ("source_mac", TOptional TStr);
    ("target_mac", TOptional TStr);
    ("vpn", TBool);
    ("max_targets", TOptional (TUnion TInt TStr));
    ("max_runtime", TOptional TInt);
    ("max_results", TOptional TInt);
    ("probes", TOptional TInt);
    ("retries", TOptional TInt);
    ("dryrun", TBool);
    ("seed", TOptional TInt);
    ("shards", TOptional TInt);
    ("shard", TOptional TInt);
    ("sender_threads", TOptional TInt);
    ("cores", TOptional (TUnion (TList TInt) TStr));
    ("ignore_invalid_hosts", TBool);
    ("max_sendto_failures", TOptional TInt);
    ("min_hitrate", TOptional TFloat);
    ("notes", TOptional TStr);
    ("user_metadata", TOptional (TUnion TDict TStr)) ].

(** Every field holds an instance of its annotation. *)
Definition well_typed (self : ZMapScanConfig) : bool :=
  forallb (fun kv => match assoc (fst kv) annotations with
                     | Some t => has_type t (snd kv)
                     | None => false
                     end) (asdict self).

(** The [__eq__] generated by [@dataclass]: the tuples of the fields are
    compared, here for two configurations that have no float object in
    common. *)
Definition config_eq (c1 c2 : ZMapScanConfig) : bool :=
  forallb (fun ab => py_eq (fst ab) (snd ab))
          (combine (map snd (asdict c1)) (map snd (asdict c2))).

(** ** Classes of objects *)




Definition is_str_key (k : pykey) : bool :=
  match k with
  | KStr _ => true
  | _ => false
  end.

(** [p] holds of the value of every field. *)
Definition every_field (p : pyval -> bool) (self : ZMapScanConfig) : bool :=
  forallb (fun kv => p (snd kv)) (asdict self).

(** ** The statements of the specification

    The definitions of this part follow the words of the specification,
    not the code; the code is compared with them. *)

(** "Six colon- or hyphen-delimited two-digit hex octets": [n] octets of two
    hexadecimal digits, a delimiter between two consecutive ones. *)
Fixpoint hex_octets (n : nat) (s : string) : bool :=
  match s with
  | String a (String b rest) =>
      is_hex a && is_hex b &&
      match n, rest with
      | 1%nat, EmptyString => true
      | S (S m), String d rest' => is_sep d && hex_octets (S m) rest'
      | _, _ => false
      end
  | _ => false
  end.

Definition canonical_mac (s : string) : bool := hex_octets 6 s.

(** The same octets read off the front of [s], with what follows them. *)
Fixpoint take_octets (n : nat) (s : string) : option string :=
  match s with
  | String a (String b rest) =>
      if is_hex a && is_hex b then
        match n, rest with
        | 1%nat, _ => Some rest
        | S (S m), String d rest' =>
            if is_sep d then take_octets (S m) rest' else None
        | _, _ => None
        end
      else None
  | _ => None
  end.

(** "Numeric": one decimal digit or more, with the number they write. *)
Definition is_decimal (s : string) : bool :=
  match s with
  | EmptyString => false
  | _ => str_forallb is_ascii_digit s
  end.

Fixpoint decimal_acc (acc : Z) (s : string) : Z :=
  match s with
  | EmptyString => acc
  | String c s' => decimal_acc (acc * 10 + digit_value c) s'
  end.

Definition decimal_value (s : string) : Z := decimal_acc 0 s.

(** "An integer in [0, 65535] or an inclusive range string start-end whose
    two bounds are numeric, each in [0, 65535], with start <= end." *)
Definition spec_source_port_ok (v : pyval) : bool :=
  match v with
  | PInt p => (0 <=? p) && (p <=? 65535)
  | PStr s =>
      match split "-" s with
      | [a; b] =>
          is_decimal a && is_decimal b
          && (0 <=? decimal_value a) && (decimal_value a <=? decimal_value b)
          && (decimal_value b <=? 65535)
      | _ => false
      end
  | _ => false
  end.

(** [s] without its last character. *)
Fixpoint chop (s : string) : string :=
  match s with
  | EmptyString => EmptyString
  | String _ EmptyString => EmptyString
  | String c s' => String c (chop s')
  end.

(** "A bare integer": digits, after a sign or not. *)
Definition is_bare_integer (s : string) : bool :=
  match s with
  | String c d =>
      if Ascii.eqb c "+" || Ascii.eqb c "-" then is_decimal d else is_decimal s
  | EmptyString => false
  end.

(** "A numeric prefix": digits, with a fractional part or not. *)
Definition is_numeric_prefix (s : string) : bool :=
  match split "." s with
  | [a] => is_decimal a
  | [a; b] => is_decimal a && is_decimal b
  | _ => false
  end.

(** "Either a bare integer or a percentage consisting of a numeric prefix
    followed by '%'." *)
Definition spec_max_targets_ok (s : string) : bool :=
  is_bare_integer s || (endswith s "%" && is_numeric_prefix (chop s)).

(** ** Messages of the configuration errors *)

Definition msg_target_port (v : pyval) : list frag :=
  [Lit "Invalid target port: "; Fmt v; Lit ". Must be between 0 and 65535."].

Definition msg_rate_bandwidth : list frag :=
  [Lit "Cannot specify both rate and bandwidth."].

Definition msg_source_port_range (v : pyval) : list frag :=
  [Lit "Invalid source port range: "; Fmt v; Lit "."].

Definition msg_source_port_range_bounds (v : pyval) : list frag :=
  [Lit "Invalid source port range: "; Fmt v; Lit ". Must be between 0 and 65535."].

Definition msg_source_port (v : pyval) : list frag :=
  [Lit "Invalid source port: "; Fmt v; Lit ". Must be between 0 and 65535."].

Definition msg_max_targets (v : pyval) : list frag :=
  [Lit "Invalid max_targets: "; Fmt v; Lit ". Must be an integer or percentage."].

Definition msg_mac (mac_field : string) (v : pyval) : list frag :=
  [Lit "Invalid "; Fmt (PStr mac_field); Lit ": "; Fmt v;
   Lit ". Must be in format 'XX:XX:XX:XX:XX:XX'."].

(** ** Validation *)

(** [ZMapScanConfig._is_valid_mac]: [re.match] raises [TypeError] when the
    subject is not a string. *)
Definition _is_valid_mac (mac : pyval) : result bool :=
  match mac with
  | PStr s => ret (re_match_to_dollar mac_pattern s)
  | _ => raise TypeError
  end.

(** The three fields visited by the loop of [_validate], with [getattr]
    resolved. *)
Definition mac_fields : list (string * (ZMapScanConfig -> pyval)) :=
  [ ("gateway_mac", gateway_mac);
    ("source_mac", source_mac);
    ("target_mac", target_mac) ].

(** ** The REST layer ([zmapsdk/api.py]): the synchronous scan

    The handler [sync_scan] is modelled with its collaborators as
    parameters: [tempfile.mkstemp], [os.close], the method [scan] of the
    [ZMap] object ([zmapsdk/core.py] is not among the sources), the check
    that pydantic makes of [ips_found] when [ScanResult] is built, and
    [isinstance(e, Exception)] and [str(e)] on what they raise.  A run is the
    list of the calls it makes, in order, and its outcome. *)
Module Api.

Definition of_int (o : option Z) : pyval :=
  match o with
  | Some z => PInt z
  | None => PNone
  end.

Definition of_str (o : option string) : pyval :=
  match o with
  | Some s => PStr s
  | None => PNone
  end.

Definition of_bool (o : option bool) : pyval :=
  match o with
  | Some b => PBool b
  | None => PNone
  end.

Definition of_str_list (o : option (list string)) : pyval :=
  match o with
  | Some l => PList (map PStr l)
  | None => PNone
  end.

(** The model [ScanRequest]: pydantic has checked the fields, so each holds
    a value of its annotation or [None]. *)
Module ScanRequest.

Record t : Type := mk {
  target_port : option Z;
  subnets : option (list string);
  output_file : option string;
  blocklist_file : option string;
  allowlist_file : option string;
  bandwidth : option string;
  probe_module : option string;
  rate : option Z;
  seed : option Z;
  verbosity : option Z;
  return_results : option bool
}.

(** [scan_request.dict()]: every field, in declaration order. *)
Definition dict (r : t) : list (string * pyval) :=
  [ ("target_port", of_int (target_port r));
    ("subnets", of_str_list (subnets r));
    ("output_file", of_str (output_file r));
    ("blocklist_file", of_str (blocklist_file r));
    ("allowlist_file", of_str (allowlist_file r));
    ("bandwidth", of_str (bandwidth r));
    ("probe_module", of_str (probe_module r));
    ("rate", of_int (rate r));
    ("seed", of_int (seed r));
    ("verbosity", of_int (verbosity r));
    ("return_results", of_bool (return_results r)) ].

End ScanRequest.

(** The model [ScanResult]. *)
Module ScanResult.

Record t : Type := mk {
  scan_id : string;
  status : string;
  ips_found : option (list string);
  output_file : option string;
  error : option string
}.

End ScanResult.

(** [HTTPException(status_code=..., detail=...)] *)
Record HTTPException : Type := {
  status_code : Z;
  detail : string
}.

(** The calls a handler makes. *)
Inductive event : Type :=
| Mkstemp (prefix suffix : string)
| OsClose (fd : Z)
| Scan (kwargs : list (string * pyval)).

(** How a handler ends: it returns its response, it raises an
    [HTTPException], or another exception escapes from it. *)
Inductive outcome (E A : Type) : Type :=
| Returned (a : A)
| Http (e : HTTPException)
| Escaped (e : E).

Arguments Returned {E A} a.
Arguments Http {E A} e.
Arguments Escaped {E A} e.

(** [params[k] = v] on a dictionary with string keys. *)
Fixpoint kw_set (kw : list (string * pyval)) (k : string) (v : pyval)
  : list (string * pyval) :=
  match kw with
  | [] => [(k, v)]
  | (k', v') :: kw' =>
      if String.eqb k k' then (k', v) :: kw' else (k', v') :: kw_set kw' k v
  end.

(** Lines 176-179: the fields of the request that are not [None], without
    [return_results], then [output_file] set to the file in use. *)
Definition params (scan_request : ScanRequest.t) (output_file : string)
  : list (string * pyval) :=
  kw_set (filter (fun kv => is_not_None (snd kv)
                            && negb (String.eqb (fst kv) "return_results"))
                 (ScanRequest.dict scan_request))
         "output_file" (PStr output_file).

(** The request [r] with [return_results] replaced. *)
Definition with_return_results (r : ScanRequest.t) (b : option bool)
  : ScanRequest.t :=
  {| ScanRequest.target_port := ScanRequest.target_port r;
     ScanRequest.subnets := ScanRequest.subnets r;
     ScanRequest.output_file := ScanRequest.output_file r;
     ScanRequest.blocklist_file := ScanRequest.blocklist_file r;
     ScanRequest.allowlist_file := ScanRequest.allowlist_file r;
     ScanRequest.bandwidth := ScanRequest.bandwidth r;
     ScanRequest.probe_module := ScanRequest.probe_module r;
     ScanRequest.rate := ScanRequest.rate r;
     ScanRequest.seed := ScanRequest.seed r;
     ScanRequest.verbosity := ScanRequest.verbosity r;
     ScanRequest.return_results := b |}.

Section Handlers.

(** What the collaborators raise: instances of [BaseException]. *)
Variable E : Type.

(** [isinstance(e, Exception)]: it does not hold of [KeyboardInterrupt],
    [SystemExit], [asyncio.CancelledError] and the like. *)
Variable is_Exception : E -> bool.

(** [str(e)], which runs the [__str__] of the exception and may raise in
    its turn. *)
Variable str : E -> E + string.

(** [tempfile.mkstemp(prefix=..., suffix=...)]: a descriptor and a path. *)
Variable mkstemp : string -> string -> E + (Z * string).

(** [os.close(fd)]: [Some e] when it raises [e]. *)
Variable os_close : Z -> option E.

(** [app.state.zmap.scan] applied to keyword arguments: it returns some
    object. *)
Variable zmap_scan : list (string * pyval) -> E + pyval.

(** The validation of [ips_found=results] by the model [ScanResult]
    ([Optional[List[str]]]): the value that the field gets, or the
    validation error. *)
Variable validate_ips_found : pyval -> E + option (list string).

(** Lines 169-172: [if not output_file] holds for [None] and for the empty
    string; the descriptor of the temporary file is closed at once.  Both
    calls are made outside the [try]. *)
Definition output_file_in_use (requested : option string)
  : list event * (E + string) :=
  match requested with
  | Some (String a s) => ([], inr (String a s))
  | Some EmptyString | None =>
      match mkstemp "zmap_api_" ".txt" with
      | inl e => ([Mkstemp "zmap_api_" ".txt"], inl e)
      | inr (temp_fd, path) =>
          ([Mkstemp "zmap_api_" ".txt"; OsClose temp_fd],
           match os_close temp_fd with
           | Some e => inl e
           | None => inr path
           end)
      end
  end.

(** Lines 190-191: [except Exception as e] catches the instances of
    [Exception] only, and [str(e)] is evaluated before the [HTTPException]
    exists. *)
Definition handle_exception (e : E) : outcome E ScanResult.t :=
  if is_Exception e then
    match str e with
    | inr text => Http {| status_code := 500; detail := text |}
    | inl e' => Escaped e'
    end
  else Escaped e.

(** Lines 182-189: the scan, then the construction of the response. *)
Definition scan_and_respond (kwargs : list (string * pyval))
  : E + ScanResult.t :=
  match zmap_scan kwargs with
  | inl e => inl e
  | inr results =>
      match validate_ips_found results with
      | inl e => inl e
      | inr ips =>
          inr {| ScanResult.scan_id := "direct_scan";
                 ScanResult.status := "completed";
                 ScanResult.ips_found := ips;
                 ScanResult.output_file := None;
                 ScanResult.error := None |}
      end
  end.

(** [sync_scan]: the temporary file is made outside the [try]; the scan and
    the construction of the response run inside it. *)
Definition sync_scan (scan_request : ScanRequest.t)
  : list event * outcome E ScanResult.t :=
  match output_file_in_use (ScanRequest.output_file scan_request) with
  | (calls, inl e) => (calls, Escaped e)
  | (calls, inr output_file) =>
      let kwargs := params scan_request output_file in
      (calls ++ [Scan kwargs],
       match scan_and_respond kwargs with
       | inr response => Returned response
       | inl e => handle_exception e
       end)
  end.

End Handlers.

End Api.

(** ** Files

    [save_to_file] and [load_from_file] go through [open].  The file system
    gives, for each path, what the path names and how the operating system
    answers on it.  Paths are taken as resolved: a link stands for the file
    it leads to, and nothing is said here of the other names of a file. *)

(** What a regular file holds, as [f.read()] finds it: bytes that decode, in
    the encoding of the locale, to a text, taken as [json.loads] reads it, or
    bytes that do not decode. *)
Inductive content : Type :=
| Text (t : json_text)
| Undecodable.

(** What a path names: nothing, a regular file, a device that discards what
    is written to it and reads as empty (as [/dev/null]), or a directory.
    The other kinds of files (FIFOs, sockets, terminals), on which [open] may
    not even return, are left out. *)
Inductive node : Type :=
| Absent
| Regular (c : content)
| Null
| Directory.

(** [opens_w]: [open(path, 'w')] is allowed (write permission on what the
    path names; for a path that names nothing, a directory in which it can be
    created).  [opens_r]: [open(path, 'r')] is allowed on what the path
    names, or will name once [open(path, 'w')] has created it with the
    permissions that the umask leaves.  [write_fails]: [Some partial] when
    the device refuses what is written (no room, an input/output error); the
    write then raises [OSError] and a regular file is left holding
    [partial]. *)
Record file : Type := mkFile {
  kind : node;
  opens_w : bool;
  opens_r : bool;
  write_fails : option content
}.

Definition filesystem : Type := string -> file.

Definition fs_update (fs : filesystem) (path : string) (f : file) : filesystem :=
  fun q => if String.eqb q path then f else fs q.

(** The file [f] naming [n] instead of what it named. *)
Definition with_kind (f : file) (n : node) : file :=
  {| kind := n;
     opens_w := opens_w f;
     opens_r := opens_r f;
     write_fails := write_fails f |}.

(** The content of a file just created or truncated: the empty string, which
    is no JSON document. *)
Definition empty_text : json_text := NotJson.

(** What a file operation raises: an exception of the configuration code,
    the [OSError] of [open] and of the writes (with its subclasses
    [FileNotFoundError], [PermissionError], [IsADirectoryError]), or the
    [UnicodeDecodeError] of [f.read()]. *)
Inductive raised : Type :=
| Raised (e : exn)
| OSError
| UnicodeDecodeError.

(** A computation on files: the outcome and the file system it leaves, also
    when it raises. *)
Definition io (A : Type) : Type := filesystem -> (raised + A) * filesystem.

(** What [open(path, 'w')] makes of a file: a regular file is emptied, a path
    that names nothing gets an empty regular file, a device stays as it
    is. *)
Definition truncated (f : file) : file :=
  match kind f with
  | Absent | Regular _ => with_kind f (Regular (Text empty_text))
  | Null | Directory => f
  end.

(** [open(filename, 'w')]: the file is created, or truncated, at once. *)
Definition open_w (fs : filesystem) (filename : string) : option filesystem :=
  let f := fs filename in
  match kind f with
  | Directory => None
  | Absent | Regular _ | Null =>
      if opens_w f then Some (fs_update fs filename (truncated f)) else None
  end.

(** [f.write(text)] on the file just opened, with the flush and the close
    that end the [with] block. *)
Definition write_text (filename : string) (text : json_text) : io unit :=
  fun fs =>
    let f := fs filename in
    let store (c : content) : filesystem :=
      match kind f with
      | Regular _ => fs_update fs filename (with_kind f (Regular c))
      | Absent | Null | Directory => fs
      end in
    match write_fails f with
    | Some partial => (inl OSError, store partial)
    | None => (inr tt, store (Text text))
    end.

(** [open(filename, 'r')] followed by [f.read()]. *)
Definition read_text (fs : filesystem) (filename : string) : raised + json_text :=
  let f := fs filename in
  match kind f with
  | Absent | Directory => inl OSError
  | Regular c =>
      if opens_r f then
        match c with
        | Text t => inr t
        | Undecodable => inl UnicodeDecodeError
        end
      else inl OSError
  | Null => if opens_r f then inr empty_text else inl OSError
  end.


(** A path that names nothing, in a directory where files can be created
    and read. *)
Definition no_file : file :=
  {| kind := Absent; opens_w := true; opens_r := true; write_fails := None |}.

(** A regular file holding [c], with the permissions given. *)
Definition regular_file (c : content) (writable readable : bool) : file :=
  {| kind := Regular c; opens_w := writable; opens_r := readable;
     write_fails := None |}.

(** The null device. *)
Definition dev_null : file :=
  {| kind := Null; opens_w := true; opens_r := true; write_fails := None |}.

(** The file system in which [path] names [f] and no other path names
    anything. *)
Definition only_file (path : string) (f : file) : filesystem :=
  fs_update (fun _ => no_file) path f.

(** The outcomes of a list of checks run in order: the first failure. *)
Fixpoint first_failure (rs : list (result unit)) : result unit :=
  match rs with
  | [] => ret tt
  | inl e :: _ => inl e
  | inr _ :: rs' => first_failure rs'
  end.

Section Interpreter.

(** [sys.get_int_max_str_digits()] *)
Variable int_max_str_digits : nat.

(** [PyLong_FromString(buf, &end, 10)] followed by the test that [end] is the
    end of the buffer; [None] stands for [ValueError]. *)
Definition long_from_string (buf : string) : option Z :=
  let (neg, s1) := strip_sign (skip_spaces buf) in
  if starts_with "_" s1 then None
  else
    match scan_digits s1 false 0 0 with
    | None => None
    | Some (v, digits, rest) =>
        if exceeds_limit int_max_str_digits digits then None
        else if (digits =? 0)%nat then None
        else match skip_spaces rest with
             | EmptyString => Some (if neg then - v else v)
             | _ => None
             end
    end.

(** [int(s)] for a [str] argument. *)
Definition py_int (s : string) : option Z :=
  long_from_string (transform_decimal_and_space s).

(** [int(s)] as a computation: the refusal is a [ValueError]. *)
Definition int_of_str (s : string) : result Z :=
  match py_int s with
  | Some z => ret z
  | None => raise ValueError
  end.

(** [repr] of an int, in base 10; a [ValueError] beyond the digit bound. *)
Definition int_repr (z : Z) : result string :=
  if exceeds_limit int_max_str_digits (decimal_digits z) then raise ValueError
  else ret (str_of_Z z).

(** ** Formatted messages *)

(** Whether [repr(k)] returns, for a key. *)
Definition key_prints (k : pykey) : bool :=
  match k with
  | KInt z => negb (exceeds_limit int_max_str_digits (decimal_digits z))
  | _ => true
  end.

(** Whether [str(v)] returns.  The text of an int is subject to the digit
    bound; a container shows its elements with [repr], which is subject to
    it too.  Every other object has a text. *)
Fixpoint prints (v : pyval) : bool :=
  match v with
  | PInt z => negb (exceeds_limit int_max_str_digits (decimal_digits z))
  | PList l | PTuple l => forallb prints l
  | PDict d => forallb (fun kv => key_prints (fst kv) && prints (snd kv)) d
  | _ => true
  end.

(** Every replacement field of the f-string has a text. *)
Definition renders (pieces : list frag) : bool :=
  forallb (fun piece => match piece with
                        | Lit _ => true
                        | Fmt v => prints v
                        end) pieces.

(** The evaluation of an f-string: each replacement field is formatted with
    [format(v, "")], that is [str(v)] for these objects, and the
    [ValueError] of an int beyond the digit bound goes through. *)
Definition fstring (pieces : list frag) : result (list frag) :=
  if renders pieces then ret pieces else raise ValueError.

(** [raise ZMapConfigError(f"...")]: the message is evaluated first. *)
Definition raise_config_error {A : Type} (pieces : list frag) : result A :=
  msg <- fstring pieces ;;
  raise (ZMapConfigError msg).

(** Lines 93-102: the source port. *)
Definition validate_source_port (sp : pyval) : result unit :=
  if is_not_None sp then
    match sp with
    | PStr s =>
        if str_contains "-" s then
          let parts := split "-" s in
          if negb (List.length parts =? 2)%nat || negb (forallb isdigit parts) then
            raise_config_error (msg_source_port_range sp)
          else
            (* start, end = map(int, parts): unpacking anything but two
               values is a ValueError too, which the test above excludes *)
            match parts with
            | [a; b] =>
                start <- int_of_str a ;;
                end_ <- int_of_str b ;;
                if negb ((0 <=? start) && (start <=? end_) && (end_ <=? 65535))
                then raise_config_error (msg_source_port_range_bounds sp)
                else ret tt
            | _ => raise ValueError
            end
        else ret tt
    | _ =>
        if isinstance_int sp then
          ok <- chain_le 0 sp 65535 ;;
          if negb ok then raise_config_error (msg_source_port sp)
          else ret tt
        else ret tt
    end
  else ret tt.

(** Lines 104-109: [max_targets]; the [ValueError] of [int] is caught and
    replaced. *)
Definition validate_max_targets (mt : pyval) : result unit :=
  match mt with
  | PStr s =>
      if negb (endswith s "%") then
        match py_int s with
        | Some _ => ret tt
        | None => raise_config_error (msg_max_targets mt)
        end
      else ret tt
  | _ => ret tt
  end.

(** Lines 112-115: the loop over the MAC fields. *)
Fixpoint validate_macs (self : ZMapScanConfig)
    (fields : list (string * (ZMapScanConfig -> pyval))) : result unit :=
  match fields with
  | [] => ret tt
  | (mac_field, get) :: fields' =>
      let mac := get self in
      bad <- (if is_not_None mac
              then (ok <- _is_valid_mac mac ;; ret (negb ok))
              else ret false) ;;
      if bad then raise_config_error (msg_mac mac_field mac)
      else validate_macs self fields'
  end.

(** [ZMapScanConfig._validate] *)
Definition _validate (self : ZMapScanConfig) : result unit :=
  bad_port <- (if is_not_None (target_port self)
               then (ok <- chain_le 0 (target_port self) 65535 ;; ret (negb ok))
               else ret false) ;;
  if bad_port then
    raise_config_error (msg_target_port (target_port self))
  else if is_not_None (rate self) && is_not_None (bandwidth self) then
    raise (ZMapConfigError msg_rate_bandwidth)
  else
    validate_source_port (source_port self) ;;;
    validate_max_targets (max_targets self) ;;;
    validate_macs self mac_fields.

(** [ZMapScanConfig.__post_init__] *)
Definition __post_init__ (self : ZMapScanConfig) : result unit :=
  _validate self.

(** The generated [__init__] once the fields are assigned: the instance
    exists only if [__post_init__] returns. *)
Definition __init__ (self : ZMapScanConfig) : result ZMapScanConfig :=
  __post_init__ self ;;;
  ret self.

(** A call of the class with the keyword arguments [kwargs]: a keyword that
    names no field is a [TypeError]. *)
Definition new (kwargs : list (string * pyval)) : result ZMapScanConfig :=
  if forallb (fun kv => is_field (fst kv)) kwargs
  then __init__ (assign_fields kwargs)
  else raise TypeError.

(** [ZMapScanConfig.to_dict]: the entries of [asdict(self)] whose value is
    not [None], in the same order. *)
Definition to_dict (self : ZMapScanConfig) : pyval :=
  PDict (map (fun kv => (KStr (fst kv), snd kv))
             (filter (fun kv => is_not_None (snd kv)) (asdict self))).

(** The keyword arguments of a call that unpacks [data] with two stars:
    [data] must be a mapping and its keys strings. *)
Fixpoint keywords (d : list (pykey * pyval)) : result (list (string * pyval)) :=
  match d with
  | [] => ret []
  | (KStr k, v) :: d' => kw <- keywords d' ;; ret ((k, v) :: kw)
  | _ :: _ => raise TypeError
  end.

(** [ZMapScanConfig.from_dict] *)
Definition from_dict (data : pyval) : result ZMapScanConfig :=
  match data with
  | PDict d => kwargs <- keywords d ;; new kwargs
  | _ => raise TypeError
  end.

(** ** The [json] module

    [json.dumps] and [json.loads] are modelled on documents rather than on
    their text: a document is the syntax tree that the text denotes, so the
    layout chosen by [indent=2] and the escapes inside string literals, which
    the parser undoes, do not appear. *)

(** The member name written for a dictionary key. *)
Definition key_str (k : pykey) : result string :=
  match k with
  | KStr s => ret s
  | KBool true => ret "true"
  | KBool false => ret "false"
  | KNone => ret "null"
  | KInt z => int_repr z
  end.

(** [json.dumps(obj)] up to layout.  A tuple is written as an array, like a
    list; an object of a class the encoder does not know, as [bytes], is a
    [TypeError]. *)
Fixpoint dumps (obj : pyval) : result json :=
  match obj with
  | PNone => ret JNull
  | PBool b => ret (JBool b)
  | PInt z => int_repr z ;;; ret (JInt z)
  | PFloat f => ret (JFloat f)
  | PStr s => ret (JString s)
  | PBytes _ => raise TypeError
  | PList l | PTuple l =>
      items <- (fix each (l : list pyval) : result (list json) :=
                  match l with
                  | [] => ret []
                  | x :: l' => j <- dumps x ;; js <- each l' ;; ret (j :: js)
                  end) l ;;
      ret (JArray items)
  | PDict d =>
      members <- (fix each (d : list (pykey * pyval))
                    : result (list (string * json)) :=
                    match d with
                    | [] => ret []
                    | (k, v) :: d' =>
                        name <- key_str k ;;
                        j <- dumps v ;;
                        ms <- each d' ;;
                        ret ((name, j) :: ms)
                    end) d ;;
      ret (JObject members)
  end.

(** The object denoted by a document; an integer literal goes through
    [int], hence the digit bound.  Members are stored one after the other,
    so a repeated name keeps its first place and its last value. *)
Fixpoint decode (j : json) : result pyval :=
  match j with
  | JNull => ret PNone
  | JBool b => ret (PBool b)
  | JInt z =>
      if exceeds_limit int_max_str_digits (decimal_digits z) then raise ValueError
      else ret (PInt z)
  | JFloat f => ret (PFloat f)
  | JString s => ret (PStr s)
  | JArray l =>
      items <- (fix each (l : list json) : result (list pyval) :=
                  match l with
                  | [] => ret []
                  | x :: l' => v <- decode x ;; vs <- each l' ;; ret (v :: vs)
                  end) l ;;
      ret (PList items)
  | JObject ms =>
      pairs <- (fix each (ms : list (string * json))
                  : result (list (pykey * pyval)) :=
                  match ms with
                  | [] => ret []
                  | (name, x) :: ms' =>
                      v <- decode x ;;
                      ps <- each ms' ;;
                      ret ((KStr name, v) :: ps)
                  end) ms ;;
      ret (PDict (fold_left (fun d kv => dict_set d (fst kv) (snd kv)) pairs []))
  end.

(** [json.loads(s)] *)
Definition loads (s : json_text) : result pyval :=
  match s with
  | NotJson => raise JSONDecodeError
  | Document j => decode j
  end.

(** [ZMapScanConfig.to_json] *)
Definition to_json (self : ZMapScanConfig) : result json_text :=
  j <- dumps (to_dict self) ;;
  ret (Document j).

(** [ZMapScanConfig.from_json] *)
Definition from_json (json_str : json_text) : result ZMapScanConfig :=
  data <- loads json_str ;;
  from_dict data.

(** [ZMapScanConfig.save_to_file]: the file is opened, hence emptied, before
    [self.to_json()] is evaluated; the [with] block closes it whatever
    happens. *)
Definition save_to_file (self : ZMapScanConfig) (filename : string) : io unit :=
  fun fs =>
    match open_w fs filename with
    | None => (inl OSError, fs)
    | Some fs1 =>
        match to_json self with
        | inl e => (inl (Raised e), fs1)
        | inr text => write_text filename text fs1
        end
    end.

(** [ZMapScanConfig.load_from_file] *)
Definition load_from_file (filename : string) : io ZMapScanConfig :=
  fun fs =>
    (match read_text fs filename with
     | inl r => inl r
     | inr text =>
         match from_json text with
         | inl e => inl (Raised e)
         | inr c => inr c
         end
     end, fs).

(** ** Derived forms used by the statements *)

(** The configuration that differs from [self] in the field [name] only. *)
Definition with_field (self : ZMapScanConfig) (name : string) (v : pyval)
  : ZMapScanConfig :=
  assign_fields ((name, v) :: asdict self).

(** Lines 87-88 on their own. *)
Definition validate_target_port (tp : pyval) : result unit :=
  bad_port <- (if is_not_None tp
               then (ok <- chain_le 0 tp 65535 ;; ret (negb ok))
               else ret false) ;;
  if bad_port then raise_config_error (msg_target_port tp) else ret tt.

(** Lines 90-91 on their own. *)
Definition validate_rate_bandwidth (r bw : pyval) : result unit :=
  if is_not_None r && is_not_None bw
  then raise (ZMapConfigError msg_rate_bandwidth)
  else ret tt.

(** One round of the loop of lines 112-115. *)
Definition validate_mac (mac_field : string) (mac : pyval) : result unit :=
  bad <- (if is_not_None mac
          then (ok <- _is_valid_mac mac ;; ret (negb ok))
          else ret false) ;;
  if bad then raise_config_error (msg_mac mac_field mac) else ret tt.

(** The checks of [_validate] in their order, as a function of the eight
    fields they read. *)
Definition checks (tp r bw sp mt gm sm tm : pyval) : result unit :=
  validate_target_port tp ;;;
  validate_rate_bandwidth r bw ;;;
  validate_source_port sp ;;;
  validate_max_targets mt ;;;
  validate_mac "gateway_mac" gm ;;;
  validate_mac "source_mac" sm ;;;
  validate_mac "target_mac" tm.

(** Construction of [self] succeeds. *)
Definition accepted (self : ZMapScanConfig) : Prop :=
  __init__ self = inr self.

(** The call with the keyword arguments [kwargs] returns an instance. *)
Definition constructs (kwargs : list (string * pyval)) : Prop :=
  new kwargs = inr (assign_fields kwargs).

(** The entries of a dictionary, and its keys in order. *)
Definition items (v : pyval) : list (pykey * pyval) :=
  match v with
  | PDict d => d
  | _ => []
  end.

Definition keys (v : pyval) : list pykey := map fst (items v).

(** The names of the fields of [self] that are not [None], in declaration
    order. *)
Definition set_fields (self : ZMapScanConfig) : list string :=
  map fst (filter (fun kv => is_not_None (snd kv)) (asdict self)).

(** The member names of a JSON object. *)
Definition member_names (t : json_text) : list string :=
  match t with
  | Document (JObject ms) => map fst ms
  | _ => []
  end.

(** The inner loops of [dumps] and [decode] under names of their own. *)
Definition dumps_members : list (pykey * pyval) -> result (list (string * json)) :=
  fix each (d : list (pykey * pyval)) : result (list (string * json)) :=
    match d with
    | [] => ret []
    | (k, v) :: d' =>
        name <- key_str k ;;
        j <- dumps v ;;
        ms <- each d' ;;
        ret ((name, j) :: ms)
    end.




(** The objects that a JSON document represents as they are: [None],
    booleans, floats, strings, integers within the digit bound, lists of such
    objects and dictionaries of them under string keys.  A tuple is not among
    them (it comes back as a list), nor is an object that the encoder
    refuses. *)
Fixpoint json_faithful (v : pyval) : bool :=
  match v with
  | PNone | PBool _ | PFloat _ | PStr _ => true
  | PInt z => negb (exceeds_limit int_max_str_digits (decimal_digits z))
  | PBytes _ | PTuple _ => false
  | PList l => forallb json_faithful l
  | PDict d =>
      forallb (fun kv => is_str_key (fst kv) && json_faithful (snd kv)) d
  end.


(** [sep.join(parts)] for a one-character [sep]. *)
Fixpoint join (sep : ascii) (parts : list string) : string :=
  match parts with
  | [] => EmptyString
  | [p] => p
  | p :: ps => (p ++ String sep (join sep ps))%string
  end.

(** When the source port is a string with a hyphen, every part of it that
    passes [isdigit] is accepted by [int]. *)
Definition digit_parts_convert (sp : pyval) : bool :=
  match sp with
  | PStr s =>
      negb (str_contains "-" s)
      || forallb (fun part => negb (isdigit part)
                              || match py_int part with
                                 | Some _ => true
                                 | None => false
                                 end)
                 (split "-" s)
  | _ => true
  end.

(** The two bounds of an accepted range. *)
Definition range_bounds (s a b : string) : Prop :=
  s = (a ++ String "-" b)%string
  /\ is_decimal a = true /\ is_decimal b = true
  /\ exceeds_limit int_max_str_digits (String.length a) = false
  /\ exceeds_limit int_max_str_digits (String.length b) = false
  /\ 0 <= decimal_value a <= decimal_value b
  /\ decimal_value b <= 65535.

(** The messages of the configuration errors that [self] can get. *)
Definition config_messages (self : ZMapScanConfig) : list (list frag) :=
  [ msg_target_port (target_port self);
    msg_rate_bandwidth;
    msg_source_port_range (source_port self);
    msg_source_port_range_bounds (source_port self);
    msg_source_port (source_port self);
    msg_max_targets (max_targets self);
    msg_mac "gateway_mac" (gateway_mac self);
    msg_mac "source_mac" (source_mac self);
    msg_mac "target_mac" (target_mac self) ].

(** The three flags and the default of each parameter of [__init__]. *)
Definition flag_fields : list string :=
  [ "vpn"; "dryrun"; "ignore_invalid_hosts" ].

Definition default_of (name : string) : pyval :=
  if existsb (String.eqb name) flag_fields then PBool false else PNone.

(** The outcomes of the seven checks of [_validate], in the order in which
    it runs them. *)
Definition check_results (self : ZMapScanConfig) : list (result unit) :=
  [ validate_target_port (target_port self);
    validate_rate_bandwidth (rate self) (bandwidth self);
    validate_source_port (source_port self);
    validate_max_targets (max_targets self);
    validate_mac "gateway_mac" (gateway_mac self);
    validate_mac "source_mac" (source_mac self);
    validate_mac "target_mac" (target_mac self) ].

(** The fields read by [_validate]. *)
Definition checked_fields : list string :=
  [ "target_port"; "rate"; "bandwidth"; "source_port"; "max_targets";
    "gateway_mac"; "source_mac"; "target_mac" ].

(** * Properties *)

(** ** The shape of the validation *)

(** A configuration error is raised with its message, unless the message
    has no text. *)
Lemma raise_config_error_eq {A : Type} (pieces : list frag) :
  @raise_config_error A pieces
  = if renders pieces then inl (ZMapConfigError pieces) else inl ValueError.
Proof.
  unfold raise_config_error, fstring. destruct (renders pieces); reflexivity.
Qed.

Lemma raise_config_error_bind {A B : Type} (pieces : list frag)
    (k : A -> result B) :
  (x <- raise_config_error pieces ;; k x) = raise_config_error pieces.
Proof.
  rewrite !raise_config_error_eq. destruct (renders pieces); reflexivity.
Qed.

Lemma renders_one (before after : string) (v : pyval) :
  renders [Lit before; Fmt v; Lit after] = prints v.
Proof. unfold renders. cbn [forallb]. now rewrite andb_true_r. Qed.

Lemma renders_msg_mac (mac_field : string) (v : pyval) :
  renders (msg_mac mac_field v) = prints v.
Proof. unfold renders, msg_mac. cbn [forallb prints andb]. now rewrite andb_true_r. Qed.

Ltac case_bind m :=
  let e := fresh "e" in
  destruct m as [e | []]; cbn [bind ret raise negb];
  rewrite ?raise_config_error_bind; try reflexivity.

Lemma validate_macs_unfold (self : ZMapScanConfig) :
  validate_macs self mac_fields
  = (validate_mac "gateway_mac" (gateway_mac self) ;;;
     validate_mac "source_mac" (source_mac self) ;;;
     validate_mac "target_mac" (target_mac self)).
Proof.
  unfold mac_fields, validate_mac. cbn [validate_macs].
  destruct (is_not_None (gateway_mac self));
    [case_bind (_is_valid_mac (gateway_mac self)) |];
  (destruct (is_not_None (source_mac self));
    [case_bind (_is_valid_mac (source_mac self)) |]);
  (destruct (is_not_None (target_mac self));
    [case_bind (_is_valid_mac (target_mac self)) |]);
  reflexivity.
Qed.

(** [_validate] reads eight fields and nothing else. *)
Lemma _validate_checks (self : ZMapScanConfig) :
  _validate self
  = checks (target_port self) (rate self) (bandwidth self) (source_port self)
           (max_targets self) (gateway_mac self) (source_mac self)
           (target_mac self).
Proof.
  unfold _validate, checks, validate_target_port, validate_rate_bandwidth.
  rewrite validate_macs_unfold.
  destruct (is_not_None (target_port self));
    [case_bind (chain_le 0 (target_port self) 65535) |];
  cbn [bind ret raise negb];
  destruct (is_not_None (rate self) && is_not_None (bandwidth self));
  reflexivity.
Qed.


Lemma accepted_iff (self : ZMapScanConfig) :
  accepted self <-> _validate self = inr tt.
Proof.
  unfold accepted, __init__, __post_init__. split.
  - destruct (_validate self) as [e | []]; cbn; [discriminate | reflexivity].
  - intros ->. reflexivity.
Qed.

Lemma __init___raises (self : ZMapScanConfig) (e : exn) :
  __init__ self = inl e <-> _validate self = inl e.
Proof.
  unfold __init__, __post_init__, bind, ret.
  destruct (_validate self) as [e' | []]; split; congruence.
Qed.

Lemma bind_ok {A : Type} (m : result unit) (k : result A) (a : A) :
  (m ;;; k) = inr a <-> m = inr tt /\ k = inr a.
Proof.
  destruct m as [e | []]; cbn; split; try tauto; try discriminate.
  intros [H _]; discriminate.
Qed.

(** Construction succeeds exactly when each of the seven checks returns. *)
Lemma checks_ok_iff (tp r bw sp mt gm sm tm : pyval) :
  checks tp r bw sp mt gm sm tm = inr tt
  <-> validate_target_port tp = inr tt
      /\ validate_rate_bandwidth r bw = inr tt
      /\ validate_source_port sp = inr tt
      /\ validate_max_targets mt = inr tt
      /\ validate_mac "gateway_mac" gm = inr tt
      /\ validate_mac "source_mac" sm = inr tt
      /\ validate_mac "target_mac" tm = inr tt.
Proof.
  unfold checks. rewrite !bind_ok. tauto.
Qed.

(** ** The target port (lines 87-88) *)

Lemma validate_target_port_None : validate_target_port PNone = inr tt.
Proof. reflexivity. Qed.

(** Outside the range the error is the configuration error that quotes the
    port, unless the port has more digits than can be printed: the f-string
    of line 88 then raises [ValueError]. *)
Lemma validate_target_port_int (p : Z) :
  validate_target_port (PInt p)
  = if (0 <=? p) && (p <=? 65535) then inr tt
    else if exceeds_limit int_max_str_digits (decimal_digits p)
         then inl ValueError
         else inl (ZMapConfigError (msg_target_port (PInt p))).
Proof.
  unfold validate_target_port, chain_le. cbn [is_not_None int_le le_int bind ret].
  destruct (0 <=? p); cbn [bind ret negb andb];
    [destruct (p <=? 65535); cbn [bind ret negb andb] |];
    try reflexivity;
    rewrite raise_config_error_eq; unfold msg_target_port;
    rewrite renders_one; cbn [prints];
    destruct (exceeds_limit _ _); reflexivity.
Qed.

Lemma in_port_range (p : Z) :
  (0 <=? p) && (p <=? 65535) = true <-> 0 <= p <= 65535.
Proof. rewrite andb_true_iff, !Z.leb_le. tauto. Qed.

Lemma _validate_with_target_port (c : ZMapScanConfig) (v : pyval) :
  _validate (with_field c "target_port" v)
  = checks v (rate c) (bandwidth c) (source_port c) (max_targets c)
           (gateway_mac c) (source_mac c) (target_mac c).
Proof. rewrite _validate_checks. reflexivity. Qed.

(** C7.  For an integer [p] given as [target_port], construction succeeds
    exactly when [0 <= p <= 65535]: alone among the keyword arguments, and
    in any configuration whose other fields are acceptable.  Outside the
    range construction fails: with the configuration error of the target
    port, or, when [p] has more digits than the interpreter prints, with the
    [ValueError] of the f-string that builds the message.  The bounds 0 and
    65535 are accepted, -1 and 65536 are refused with the configuration
    error. *)
Theorem target_port_accepted_iff_in_range (p : Z) :
  (new [("target_port", PInt p)] = inr (assign_fields [("target_port", PInt p)])
   <-> 0 <= p <= 65535)
  /\ (~ 0 <= p <= 65535 ->
      new [("target_port", PInt p)]
      = if exceeds_limit int_max_str_digits (decimal_digits p)
        then inl ValueError
        else inl (ZMapConfigError (msg_target_port (PInt p))))
  /\ (forall c : ZMapScanConfig,
        accepted (with_field c "target_port" (PInt p))
        <-> 0 <= p <= 65535 /\ accepted (with_field c "target_port" PNone))
  /\ accepted (assign_fields [("target_port", PInt 0)])
  /\ accepted (assign_fields [("target_port", PInt 65535)])
  /\ __init__ (assign_fields [("target_port", PInt (-1))])
     = inl (ZMapConfigError (msg_target_port (PInt (-1))))
  /\ __init__ (assign_fields [("target_port", PInt 65536)])
     = inl (ZMapConfigError (msg_target_port (PInt 65536))).
Proof.
  assert (Hnew : new [("target_port", PInt p)]
                 = if (0 <=? p) && (p <=? 65535)
                   then inr (assign_fields [("target_port", PInt p)])
                   else if exceeds_limit int_max_str_digits (decimal_digits p)
                        then inl ValueError
                        else inl (ZMapConfigError (msg_target_port (PInt p)))).
  { unfold new. cbn [forallb fst is_field].
    change (is_field "target_port") with true. cbn [andb].
    unfold __init__, __post_init__. rewrite _validate_checks.
    change (checks _ _ _ _ _ _ _ _)
      with (validate_target_port (PInt p) ;;; (ret tt : result unit)).
    rewrite validate_target_port_int.
    destruct ((0 <=? p) && (p <=? 65535)); [reflexivity |].
    destruct (exceeds_limit _ _); reflexivity. }
  split; [| split; [| split; [| repeat split]]].
  - rewrite Hnew. destruct ((0 <=? p) && (p <=? 65535)) eqn:E.
    + apply in_port_range in E. tauto.
    + split; [destruct (exceeds_limit _ _); discriminate |].
      intros H. apply in_port_range in H. congruence.
  - intros Hout. rewrite Hnew. destruct ((0 <=? p) && (p <=? 65535)) eqn:E.
    + apply in_port_range in E. contradiction.
    + reflexivity.
  - intros c.
    rewrite !accepted_iff, !_validate_with_target_port, !checks_ok_iff.
    rewrite validate_target_port_int, validate_target_port_None.
    destruct ((0 <=? p) && (p <=? 65535)) eqn:E.
    + apply in_port_range in E. tauto.
    + split.
      * intros [H _]. destruct (exceeds_limit _ _); discriminate.
      * intros [H _]. apply in_port_range in H. congruence.
Qed.

(** ** What each check can raise *)

Lemma validate_target_port_raises (tp : pyval) (e : exn) :
  validate_target_port tp = inl e ->
  e = TypeError \/ e = ValueError \/ e = ZMapConfigError (msg_target_port tp).
Proof.
  unfold validate_target_port, chain_le.
  destruct tp as [| b | z | f | s | bs | l | l | d];
    cbn [is_not_None int_le le_int bind ret raise];
    try (intros H; inversion H; auto; fail).
  - destruct (0 <=? Z.b2z b); cbn [bind ret negb];
      [destruct (Z.b2z b <=? 65535); cbn [bind ret negb] |];
      rewrite ?raise_config_error_eq; try destruct (renders _);
      intros H; inversion H; auto.
  - destruct (0 <=? z); cbn [bind ret negb];
      [destruct (z <=? 65535); cbn [bind ret negb] |];
      rewrite ?raise_config_error_eq; try destruct (renders _);
      intros H; inversion H; auto.
  - destruct (Z_le_float 0 f); cbn [bind ret negb];
      [destruct (float_le_Z f 65535); cbn [bind ret negb] |];
      rewrite ?raise_config_error_eq; try destruct (renders _);
      intros H; inversion H; auto.
Qed.

(** With a target port of its announced type the first check never raises
    a [TypeError], and it raises a [ValueError] only for an integer that is
    out of range and too long to be printed. *)
Lemma validate_target_port_typed (tp : pyval) (e : exn) :
  has_type (TOptional TInt) tp = true ->
  validate_target_port tp = inl e ->
  (e = ZMapConfigError (msg_target_port tp) /\ prints tp = true)
  \/ (e = ValueError /\ prints tp = false).
Proof.
  intros Ht.
  destruct tp as [| b | z | f | s | bs | l | l | d]; try discriminate Ht.
  - discriminate.
  - unfold validate_target_port, chain_le.
    cbn [is_not_None int_le le_int bind ret].
    destruct b; cbn; discriminate.
  - rewrite validate_target_port_int. cbn [prints].
    destruct ((0 <=? z) && (z <=? 65535)); [discriminate |].
    destruct (exceeds_limit _ _); intros H; inversion H; auto.
Qed.

Lemma validate_rate_bandwidth_both (r bw : pyval) :
  is_not_None r = true -> is_not_None bw = true ->
  validate_rate_bandwidth r bw = inl (ZMapConfigError msg_rate_bandwidth).
Proof. unfold validate_rate_bandwidth. intros -> ->. reflexivity. Qed.

Lemma validate_rate_bandwidth_one (r bw : pyval) :
  r = PNone \/ bw = PNone -> validate_rate_bandwidth r bw = inr tt.
Proof.
  unfold validate_rate_bandwidth. intros [-> | ->]; cbn;
    [| rewrite andb_false_r]; reflexivity.
Qed.

Lemma validate_source_port_raises (sp : pyval) (e : exn) :
  validate_source_port sp = inl e ->
  e = ValueError
  \/ e = ZMapConfigError (msg_source_port_range sp)
  \/ e = ZMapConfigError (msg_source_port_range_bounds sp)
  \/ e = ZMapConfigError (msg_source_port sp).
Proof.
  unfold validate_source_port, chain_le, int_of_str.
  destruct sp as [| b | z | f | s | bs | l | l | d];
    cbn [is_not_None isinstance_int int_le le_int bind ret raise];
    try discriminate.
  - destruct (0 <=? Z.b2z b); cbn [bind ret negb];
      [destruct (Z.b2z b <=? 65535); cbn [bind ret negb] |];
      rewrite ?raise_config_error_eq; try destruct (renders _);
      intros H; inversion H; auto.
  - destruct (0 <=? z); cbn [bind ret negb];
      [destruct (z <=? 65535); cbn [bind ret negb] |];
      rewrite ?raise_config_error_eq; try destruct (renders _);
      intros H; inversion H; auto.
  - destruct (str_contains "-" s); [| discriminate].
    destruct (negb _ || negb _);
      [rewrite raise_config_error_eq; destruct (renders _);
       intros H; inversion H; auto |].
    destruct (split "-" s) as [| a [| b [| x parts]]];
      try (intros H; inversion H; auto; fail).
    destruct (py_int a) as [start |]; cbn [bind ret raise];
      [| intros H; inversion H; auto].
    destruct (py_int b) as [end_ |]; cbn [bind ret raise];
      [| intros H; inversion H; auto].
    destruct (negb _); [| discriminate].
    rewrite raise_config_error_eq; destruct (renders _);
      intros H; inversion H; auto.
Qed.

Lemma validate_max_targets_raises (mt : pyval) (e : exn) :
  validate_max_targets mt = inl e -> e = ZMapConfigError (msg_max_targets mt).
Proof.
  unfold validate_max_targets. destruct mt; try discriminate.
  destruct (negb _); [| discriminate].
  destruct (py_int s); [discriminate |]. intros H; inversion H; auto.
Qed.

Lemma validate_mac_str (mac_field s : string) :
  validate_mac mac_field (PStr s)
  = if re_match_to_dollar mac_pattern s then inr tt
    else inl (ZMapConfigError (msg_mac mac_field (PStr s))).
Proof.
  unfold validate_mac, _is_valid_mac. cbn [is_not_None bind ret].
  destruct (re_match_to_dollar mac_pattern s); reflexivity.
Qed.

Lemma validate_mac_raises (mac_field : string) (mac : pyval) (e : exn) :
  validate_mac mac_field mac = inl e ->
  e = TypeError \/ e = ZMapConfigError (msg_mac mac_field mac).
Proof.
  destruct mac; try (cbn; intros H; inversion H; auto; fail).
  rewrite validate_mac_str.
  destruct (re_match_to_dollar mac_pattern s); intros H; inversion H; auto.
Qed.

(** The check that raised is the first one that does not return. *)
Lemma checks_raises (tp r bw sp mt gm sm tm : pyval) (e : exn) :
  checks tp r bw sp mt gm sm tm = inl e ->
  validate_target_port tp = inl e
  \/ validate_rate_bandwidth r bw = inl e
  \/ validate_source_port sp = inl e
  \/ validate_max_targets mt = inl e
  \/ validate_mac "gateway_mac" gm = inl e
  \/ validate_mac "source_mac" sm = inl e
  \/ validate_mac "target_mac" tm = inl e.
Proof.
  unfold checks.
  destruct (validate_target_port tp) as [e1 | []]; cbn [bind]; [tauto |].
  destruct (validate_rate_bandwidth r bw) as [e2 | []]; cbn [bind]; [tauto |].
  destruct (validate_source_port sp) as [e3 | []]; cbn [bind]; [tauto |].
  destruct (validate_max_targets mt) as [e4 | []]; cbn [bind]; [tauto |].
  destruct (validate_mac "gateway_mac" gm) as [e5 | []]; cbn [bind]; [tauto |].
  destruct (validate_mac "source_mac" sm) as [e6 | []]; cbn [bind]; tauto.
Qed.

(** ** Rate and bandwidth (lines 90-91) *)

Lemma validate_target_port_typed_cases (tp : pyval) :
  has_type (TOptional TInt) tp = true ->
  validate_target_port tp = inr tt
  \/ exists p,
       tp = PInt p /\ ~ 0 <= p <= 65535
       /\ validate_target_port tp
          = if exceeds_limit int_max_str_digits (decimal_digits p)
            then inl ValueError
            else inl (ZMapConfigError (msg_target_port tp)).
Proof.
  intros Ht.
  destruct tp as [| b | z | f | s | bs | l | l | d]; try discriminate Ht.
  - now left.
  - left. destruct b; reflexivity.
  - rewrite validate_target_port_int.
    destruct ((0 <=? z) && (z <=? 65535)) eqn:E; [now left |].
    right. exists z. repeat split; auto.
    intros H. apply in_port_range in H. congruence.
Qed.

(** With [rate] and [bandwidth] both set, construction raises what the
    check of the target port raises, and the error of line 91 when that
    check returns. *)
Lemma both_set_raises (c : ZMapScanConfig) (e : exn) :
  is_not_None (rate c) = true ->
  is_not_None (bandwidth c) = true ->
  __init__ c = inl e
  <-> (validate_target_port (target_port c) ;;;
       (raise (ZMapConfigError msg_rate_bandwidth) : result unit)) = inl e.
Proof.
  intros Hr Hb. rewrite __init___raises, _validate_checks. unfold checks.
  rewrite (validate_rate_bandwidth_both _ _ Hr Hb).
  destruct (validate_target_port (target_port c)) as [e1 | []]; reflexivity.
Qed.

Lemma both_set_never_constructed (c : ZMapScanConfig) :
  is_not_None (rate c) = true ->
  is_not_None (bandwidth c) = true ->
  (exists e, __init__ c = inl e)
  /\ (validate_target_port (target_port c) = inr tt ->
      __init__ c = inl (ZMapConfigError msg_rate_bandwidth))
  /\ (has_type (TOptional TInt) (target_port c) = true ->
      (__init__ c = inl ValueError
       <-> exists p,
             target_port c = PInt p /\ ~ 0 <= p <= 65535
             /\ exceeds_limit int_max_str_digits (decimal_digits p) = true)
      /\ (__init__ c <> inl ValueError ->
          exists msg, __init__ c = inl (ZMapConfigError msg))).
Proof.
  intros Hr Hb. pose proof (fun e => both_set_raises c e Hr Hb) as Hc.
  split; [| split].
  - destruct (validate_target_port (target_port c)) as [e1 | []] eqn:E.
    + exists e1. apply Hc. reflexivity.
    + eexists. apply Hc. reflexivity.
  - intros E. apply Hc. rewrite E. reflexivity.
  - intros Ht.
    destruct (validate_target_port_typed_cases _ Ht) as [E | [p [Ep [Hout E]]]].
    + assert (Hi : __init__ c = inl (ZMapConfigError msg_rate_bandwidth)).
      { apply Hc. rewrite E. reflexivity. }
      split; [| eauto]. rewrite Hi. split; [discriminate |].
      intros [p [Ep [Hout _]]]. rewrite Ep, validate_target_port_int in E.
      destruct ((0 <=? p) && (p <=? 65535)) eqn:Er.
      * apply in_port_range in Er. contradiction.
      * destruct (exceeds_limit _ _); discriminate.
    + destruct (exceeds_limit int_max_str_digits (decimal_digits p)) eqn:El.
      * assert (Hi : __init__ c = inl ValueError).
        { apply Hc. rewrite E. reflexivity. }
        split; [| congruence]. split; [| auto].
        intros _. exists p. auto.
      * assert (Hi : __init__ c
                     = inl (ZMapConfigError (msg_target_port (target_port c)))).
        { apply Hc. rewrite E. reflexivity. }
        split; [| eauto]. rewrite Hi. split; [discriminate |].
        intros [q [Eq [_ Hq]]]. rewrite Ep in Eq. inversion Eq. congruence.
Qed.

Lemma one_set_no_rate_bandwidth_error (c : ZMapScanConfig) :
  rate c = PNone \/ bandwidth c = PNone ->
  __init__ c <> inl (ZMapConfigError msg_rate_bandwidth).
Proof.
  intros Hone H. apply __init___raises in H.
  rewrite _validate_checks in H. apply checks_raises in H.
  rewrite (validate_rate_bandwidth_one _ _ Hone) in H.
  destruct H as [H | [H | [H | [H | [H | [H | H]]]]]].
  - apply validate_target_port_raises in H.
    destruct H as [H | [H | H]]; discriminate.
  - discriminate.
  - apply validate_source_port_raises in H.
    destruct H as [H | [H | [H | H]]]; discriminate.
  - apply validate_max_targets_raises in H. discriminate.
  - apply validate_mac_raises in H. destruct H; discriminate.
  - apply validate_mac_raises in H. destruct H; discriminate.
  - apply validate_mac_raises in H. destruct H; discriminate.
Qed.

(** ** Fields that are not validated *)

Lemma arg_other (kwargs : list (string * pyval)) (name f : string)
    (v default : pyval) :
  name <> f -> arg ((name, v) :: kwargs) f default = arg kwargs f default.
Proof.
  intros Hne. unfold arg. cbn [assoc].
  destruct (String.eqb f name) eqn:E; [| reflexivity].
  apply String.eqb_eq in E. congruence.
Qed.

(** Assigning a field that [_validate] does not read changes nothing to the
    outcome of the validation. *)
Lemma _validate_frame (c : ZMapScanConfig) (name : string) (v : pyval) :
  ~ In name checked_fields ->
  _validate (with_field c name v) = _validate c.
Proof.
  intros Hn. rewrite !_validate_checks. unfold with_field, assign_fields.
  cbn [target_port rate bandwidth source_port max_targets gateway_mac
       source_mac target_mac].
  rewrite !arg_other by (intros ->; apply Hn; cbn; tauto).
  reflexivity.
Qed.

(** C1, as the code has it.  No check relates the shard index to the shard
    count: whatever the two integers, the call with [shards=n, shard=m]
    returns an instance, and assigning [shards] and [shard] in any
    configuration leaves the outcome of the validation unchanged. *)
Theorem shard_and_shards_unrelated :
  (forall n m : Z, constructs [("shards", PInt n); ("shard", PInt m)])
  /\ (forall (c : ZMapScanConfig) (v w : pyval),
        _validate (with_field (with_field c "shards" v) "shard" w)
        = _validate c).
Proof.
  split.
  - intros n m. reflexivity.
  - intros c v w.
    rewrite !_validate_frame; [reflexivity | |]; cbn;
      intuition discriminate.
Qed.

(** C10.  Nothing is checked on the other fields: every integer, negative
    ones included, is accepted as [rate], [cooldown_time], [max_runtime],
    [max_results], [probes], [retries], [shards], [shard] and [max_targets],
    every string as [bandwidth], [interface] and [source_ip]; and assigning
    any object to a field outside the eight that [_validate] reads never
    changes whether a configuration is accepted. *)
Theorem unchecked_fields_accept_any_value :
  (forall n : Z,
      constructs [("rate", PInt n)]
      /\ constructs [("cooldown_time", PInt n)]
      /\ constructs [("max_runtime", PInt n)]
      /\ constructs [("max_results", PInt n)]
      /\ constructs [("probes", PInt n)]
      /\ constructs [("retries", PInt n)]
      /\ constructs [("shards", PInt n)]
      /\ constructs [("shard", PInt n)]
      /\ constructs [("max_targets", PInt n)])
  /\ (forall s : string,
        constructs [("bandwidth", PStr s)]
        /\ constructs [("interface", PStr s)]
        /\ constructs [("source_ip", PStr s)])
  /\ (forall (c : ZMapScanConfig) (name : string) (v : pyval),
        ~ In name checked_fields ->
        (accepted (with_field c name v) <-> accepted c)).
Proof.
  split; [| split].
  - intros n. repeat split.
  - intros s. repeat split.
  - intros c name v Hn. rewrite !accepted_iff, _validate_frame by exact Hn.
    tauto.
Qed.

(** ** Encoding to a dictionary *)

Lemma assoc_In {A : Type} (k : string) (v : A) (l : list (string * A)) :
  assoc k l = Some v -> In (k, v) l.
Proof.
  induction l as [| [k' v'] l IH]; cbn; [discriminate |].
  destruct (String.eqb k k') eqn:E.
  - apply String.eqb_eq in E. intros H. inversion H. subst. now left.
  - intros H. right. auto.
Qed.

Lemma assoc_None_not_In {A : Type} (k : string) (l : list (string * A)) :
  ~ In k (map fst l) -> assoc k l = None.
Proof.
  induction l as [| [k' v'] l IH]; cbn; [reflexivity |].
  intros H. destruct (String.eqb k k') eqn:E.
  - apply String.eqb_eq in E. subst. tauto.
  - apply IH. tauto.
Qed.

Lemma In_assoc {A : Type} (k : string) (v : A) (l : list (string * A)) :
  NoDup (map fst l) -> In (k, v) l -> assoc k l = Some v.
Proof.
  induction l as [| [k' v'] l IH]; cbn; [tauto |].
  intros Hnd [H | H]; inversion Hnd as [| ? ? Hk Hl]; subst.
  - inversion H; subst. now rewrite String.eqb_refl.
  - destruct (String.eqb k k') eqn:E; [| auto].
    apply String.eqb_eq in E. subst. exfalso. apply Hk.
    change k' with (fst (k', v)). now apply in_map.
Qed.


Ltac nodup_strings :=
  repeat (constructor; [cbn; intuition discriminate |]); constructor.

Lemma asdict_names (self : ZMapScanConfig) :
  map fst (asdict self) = field_names.
Proof. reflexivity. Qed.

Lemma field_names_NoDup : NoDup field_names.
Proof. unfold field_names. cbn. nodup_strings. Qed.

Lemma asdict_NoDup (self : ZMapScanConfig) : NoDup (map fst (asdict self)).
Proof. rewrite asdict_names. exact field_names_NoDup. Qed.

Lemma getattr_In (self : ZMapScanConfig) (name : string) (v : pyval) :
  getattr self name = Some v <-> In (name, v) (asdict self).
Proof.
  unfold getattr. split; [apply assoc_In | apply In_assoc, asdict_NoDup].
Qed.

Lemma to_dict_items (self : ZMapScanConfig) (k : pykey) (v : pyval) :
  In (k, v) (items (to_dict self))
  <-> exists name, k = KStr name /\ getattr self name = Some v /\ v <> PNone.
Proof.
  unfold to_dict, items. rewrite in_map_iff. split.
  - intros [[name v'] [H Hin]]. cbn [fst snd] in H. inversion H; subst.
    apply filter_In in Hin. destruct Hin as [Hin Hv]. cbn [snd] in Hv.
    exists name. rewrite getattr_In. repeat split; auto.
    intros ->. discriminate.
  - intros [name [-> [Hg Hv]]]. exists (name, v). split; [reflexivity |].
    apply filter_In. rewrite <- getattr_In. split; [assumption |].
    destruct v; cbn; congruence.
Qed.

Lemma to_dict_keys (self : ZMapScanConfig) :
  keys (to_dict self) = map KStr (set_fields self).
Proof.
  unfold keys, to_dict, items, set_fields. rewrite !map_map. reflexivity.
Qed.

Lemma dumps_PDict (d : list (pykey * pyval)) :
  dumps (PDict d) = (members <- dumps_members d ;; ret (JObject members)).
Proof. reflexivity. Qed.




Lemma dumps_members_names (l : list (string * pyval))
    (ms : list (string * json)) :
  dumps_members (map (fun kv => (KStr (fst kv), snd kv)) l) = inr ms ->
  map fst ms = map fst l.
Proof.
  revert ms. induction l as [| [k v] l IH]; intros ms; cbn.
  - intros H. inversion H. reflexivity.
  - destruct (dumps v) as [e | j]; cbn; [discriminate |].
    destruct (dumps_members _) as [e | ms']; cbn; [discriminate |].
    intros H. inversion H. cbn. f_equal. now apply IH.
Qed.

Lemma to_json_member_names (self : ZMapScanConfig) (t : json_text) :
  to_json self = inr t -> member_names t = set_fields self.
Proof.
  unfold to_json, to_dict. rewrite dumps_PDict.
  destruct (dumps_members _) as [e | ms] eqn:E; unfold bind, ret;
    [discriminate |].
  intros H. inversion H. unfold member_names, set_fields.
  exact (dumps_members_names _ _ E).
Qed.

Lemma getattr_assign_fields (kwargs : list (string * pyval)) (name : string) :
  In name field_names ->
  getattr (assign_fields kwargs) name = Some (arg kwargs name (default_of name)).
Proof.
  intros H. cbn in H.
  repeat (destruct H as [<- | H]; [reflexivity |]). contradiction.
Qed.

Lemma set_fields_In (self : ZMapScanConfig) (name : string) :
  In name (set_fields self)
  <-> exists v, getattr self name = Some v /\ v <> PNone.
Proof.
  unfold set_fields. rewrite in_map_iff. split.
  - intros [[n v] [Hn Hin]]. cbn [fst] in Hn. subst n.
    apply filter_In in Hin. destruct Hin as [Hin Hv]. cbn [snd] in Hv.
    exists v. split; [now apply getattr_In |]. intros ->. discriminate.
  - intros [v [Hg Hv]]. exists (name, v). split; [reflexivity |].
    apply filter_In. split; [now apply getattr_In |].
    destruct v; cbn; congruence.
Qed.

(** C9, as the code has it.  [to_dict] keeps exactly the fields whose value
    is not [None], in declaration order, and [to_json], when it returns, has
    one member per entry under the same names.  So a field that was passed
    with a value other than [None] is emitted, and a field that was not
    passed is omitted unless it is one of the three flags: their default is
    [False], not [None], and they are emitted with it. *)
Theorem to_dict_keeps_fields_that_are_not_None :
  (forall (c : ZMapScanConfig) (k : pykey) (v : pyval),
      In (k, v) (items (to_dict c))
      <-> exists name, k = KStr name /\ getattr c name = Some v /\ v <> PNone)
  /\ (forall c : ZMapScanConfig, keys (to_dict c) = map KStr (set_fields c))
  /\ (forall (c : ZMapScanConfig) (t : json_text),
        to_json c = inr t -> member_names t = set_fields c)
  /\ (forall (kwargs : list (string * pyval)) (name : string) (v : pyval),
        In name field_names -> assoc name kwargs = Some v -> v <> PNone ->
        In (KStr name, v) (items (to_dict (assign_fields kwargs))))
  /\ (forall (kwargs : list (string * pyval)) (name : string),
        In name field_names -> assoc name kwargs = None ->
        (In name (set_fields (assign_fields kwargs)) <-> In name flag_fields)).
Proof.
  split; [exact to_dict_items |].
  split; [exact to_dict_keys |].
  split; [exact to_json_member_names |].
  split.
  - intros kwargs name v Hf Hk Hv. apply to_dict_items. exists name.
    rewrite (getattr_assign_fields _ _ Hf). unfold arg. rewrite Hk. auto.
  - intros kwargs name Hf Hk. rewrite set_fields_In.
    rewrite (getattr_assign_fields _ _ Hf). unfold arg. rewrite Hk.
    unfold default_of.
    assert (Hflag : existsb (String.eqb name) flag_fields = true
                    <-> In name flag_fields).
    { rewrite existsb_exists. split.
      - intros [x [Hx E]]. apply String.eqb_eq in E. now subst.
      - intros H. exists name. split; [assumption | apply String.eqb_refl]. }
    destruct (existsb (String.eqb name) flag_fields).
    + split; [intros _; now apply Hflag |].
      intros _. exists (PBool false). split; [reflexivity | discriminate].
    + split; [| intros H; apply Hflag in H; discriminate].
      intros [v [H Hv]]. inversion H. congruence.
Qed.

(** ** Decoding a dictionary *)








(** ** Encoding to JSON and back *)










(** ** Equality after a round trip *)











Lemma NoDup_names_filter (p : string * pyval -> bool)
    (l : list (string * pyval)) :
  NoDup (map fst l) -> NoDup (map fst (filter p l)).
Proof.
  induction l as [| kv l IH]; cbn [map filter]; [auto |].
  intros H. inversion H as [| ? ? Hk Hl]; subst.
  destruct (p kv); cbn [map]; [constructor |]; auto.
  intros Hin. apply Hk. apply in_map_iff in Hin.
  destruct Hin as [x [Hx Hin]]. apply filter_In in Hin.
  rewrite <- Hx. apply in_map. tauto.
Qed.





(** ** MAC addresses (lines 112-121) *)

Ltac lockstep :=
  repeat match goal with
         | |- context [match ?s with
                       | EmptyString => _
                       | String _ _ => _
                       end] =>
             is_var s; destruct s; cbn; try reflexivity
         | |- context [if ?b then _ else _] =>
             destruct b; cbn; try reflexivity
         end.

(** The pattern consumes exactly six delimited octets. *)
Lemma consume_mac_pattern (s : string) :
  consume mac_pattern s = take_octets 6 s.
Proof. unfold mac_pattern, hex_class, sep_class. cbn. lockstep. Qed.

Lemma take_octets_iff (n : nat) (s rest : string) :
  take_octets n s = Some rest
  <-> exists t, s = (t ++ rest)%string /\ hex_octets n t = true.
Proof.
  revert s. induction n as [| n IH]; intros s.
  - split.
    + destruct s as [| a [| b r]]; cbn; try discriminate.
      destruct (is_hex a && is_hex b); discriminate.
    + intros [t [_ H]]. destruct t as [| a [| b r]]; cbn in H; try discriminate.
      rewrite andb_false_r in H. discriminate.
  - destruct s as [| a [| b r]]; cbn [take_octets].
    + split; [discriminate |]. intros [t [E H]].
      destruct t as [| x [| y t]]; cbn in H; discriminate.
    + split; [discriminate |]. intros [t [E H]].
      destruct t as [| x [| y t]]; cbn in H, E; discriminate.
    + destruct n as [| m].
      * split.
        -- destruct (is_hex a && is_hex b) eqn:E; [| discriminate].
           intros H. inversion H; subst. exists (String a (String b "")).
           split; [reflexivity |]. cbn. now rewrite E.
        -- intros [t [E H]]. destruct t as [| x [| y t]]; cbn in H;
             try discriminate.
           apply andb_true_iff in H. destruct H as [Hh Ht].
           destruct t; [| discriminate]. cbn in E. inversion E; subst.
           now rewrite Hh.
      * split.
        -- destruct (is_hex a && is_hex b) eqn:E; [| discriminate].
           destruct r as [| d r]; [discriminate |].
           destruct (is_sep d) eqn:Ed; [| discriminate].
           intros H. apply IH in H. destruct H as [t [-> Ht]].
           exists (String a (String b (String d t))). split; [reflexivity |].
           cbn [hex_octets]. now rewrite E, Ed, Ht.
        -- intros [t [E H]]. destruct t as [| x [| y t]];
             cbn [hex_octets] in H; try discriminate.
           apply andb_true_iff in H. destruct H as [Hh Ht].
           destruct t as [| d t]; [discriminate |].
           apply andb_true_iff in Ht. destruct Ht as [Hd Ht].
           cbn in E. inversion E; subst. rewrite Hh, Hd.
           apply IH. eauto.
Qed.

Lemma append_empty_r (s : string) : (s ++ "")%string = s.
Proof. induction s as [| a s IH]; cbn; [reflexivity | now rewrite IH]. Qed.

(** What [_is_valid_mac] accepts: the six octets, alone or followed by one
    line feed. *)
Lemma _is_valid_mac_iff (s : string) :
  _is_valid_mac (PStr s) = inr true
  <-> canonical_mac s = true
      \/ exists t, s = (t ++ String LF "")%string /\ canonical_mac t = true.
Proof.
  unfold _is_valid_mac, re_match_to_dollar, canonical_mac, ret.
  rewrite consume_mac_pattern. split.
  - destruct (take_octets 6 s) as [rest |] eqn:E; [| discriminate].
    apply take_octets_iff in E. destruct E as [t [-> Ht]].
    destruct rest as [| c [| c' rest]]; cbn [at_dollar]; try discriminate.
    + intros _. left. now rewrite append_empty_r.
    + intros H. inversion H as [Hc]. apply Ascii.eqb_eq in Hc. subst. eauto.
  - intros [H | [t [-> H]]].
    + assert (E : take_octets 6 s = Some "").
      { apply take_octets_iff. exists s. now rewrite append_empty_r. }
      now rewrite E.
    + assert (E : take_octets 6 (t ++ String LF "") = Some (String LF "")).
      { apply take_octets_iff. eauto. }
      now rewrite E.
Qed.

Lemma validate_mac_None (mac_field : string) :
  validate_mac mac_field PNone = inr tt.
Proof. reflexivity. Qed.

Lemma validate_mac_str_ok (mac_field s : string) :
  validate_mac mac_field (PStr s) = inr tt
  <-> canonical_mac s = true
      \/ exists t, s = (t ++ String LF "")%string /\ canonical_mac t = true.
Proof.
  rewrite validate_mac_str, <- _is_valid_mac_iff. unfold _is_valid_mac, ret.
  destruct (re_match_to_dollar mac_pattern s); split; congruence.
Qed.

Lemma _validate_with_gateway_mac (c : ZMapScanConfig) (v : pyval) :
  _validate (with_field c "gateway_mac" v)
  = checks (target_port c) (rate c) (bandwidth c) (source_port c)
           (max_targets c) v (source_mac c) (target_mac c).
Proof. rewrite _validate_checks. reflexivity. Qed.

Lemma _validate_with_source_mac (c : ZMapScanConfig) (v : pyval) :
  _validate (with_field c "source_mac" v)
  = checks (target_port c) (rate c) (bandwidth c) (source_port c)
           (max_targets c) (gateway_mac c) v (target_mac c).
Proof. rewrite _validate_checks. reflexivity. Qed.

Lemma _validate_with_target_mac (c : ZMapScanConfig) (v : pyval) :
  _validate (with_field c "target_mac" v)
  = checks (target_port c) (rate c) (bandwidth c) (source_port c)
           (max_targets c) (gateway_mac c) (source_mac c) v.
Proof. rewrite _validate_checks. reflexivity. Qed.

(** C4, what the code does.  A string given as [gateway_mac], [source_mac]
    or [target_mac] is accepted exactly when it is six delimited octets,
    or six delimited octets followed by one line feed: ["AA:BB:CC:DD:EE:FF"]
    is accepted and ["AA:BB:CC"] is not, but ["AA:BB:CC:DD:EE:FF"] followed
    by a line feed, which is not six delimited octets, is accepted too. *)
Theorem mac_followed_by_line_feed_is_accepted :
  (forall (c : ZMapScanConfig) (s : string),
      let six_octets_or_with_LF :=
        canonical_mac s = true
        \/ exists t, s = (t ++ String LF "")%string /\ canonical_mac t = true in
      (accepted (with_field c "gateway_mac" (PStr s))
       <-> six_octets_or_with_LF /\ accepted (with_field c "gateway_mac" PNone))
      /\ (accepted (with_field c "source_mac" (PStr s))
          <-> six_octets_or_with_LF /\ accepted (with_field c "source_mac" PNone))
      /\ (accepted (with_field c "target_mac" (PStr s))
          <-> six_octets_or_with_LF /\ accepted (with_field c "target_mac" PNone)))
  /\ constructs [("gateway_mac", PStr "AA:BB:CC:DD:EE:FF")]
  /\ new [("gateway_mac", PStr "AA:BB:CC")]
     = inl (ZMapConfigError (msg_mac "gateway_mac" (PStr "AA:BB:CC")))
  /\ canonical_mac ("AA:BB:CC:DD:EE:FF" ++ String LF "") = false
  /\ constructs [("gateway_mac", PStr ("AA:BB:CC:DD:EE:FF" ++ String LF ""))]
  /\ constructs [("source_mac", PStr ("AA:BB:CC:DD:EE:FF" ++ String LF ""))]
  /\ constructs [("target_mac", PStr ("AA:BB:CC:DD:EE:FF" ++ String LF ""))].
Proof.
  split; [| repeat split].
  intros c s six. subst six.
  rewrite !accepted_iff, !_validate_with_gateway_mac,
    !_validate_with_source_mac, !_validate_with_target_mac, !checks_ok_iff.
  rewrite !validate_mac_None, !validate_mac_str_ok. tauto.
Qed.

(** ** [int] on strings of digits *)

Lemma digit_char (c : ascii) :
  is_ascii_digit c = true ->
  Py_ISSPACE c = false
  /\ Ascii.eqb c "+" = false
  /\ Ascii.eqb c "-" = false
  /\ Ascii.eqb c "_" = false
  /\ (code c <? 128)%nat = true
  /\ unicode_isdigit c = true.
Proof.
  destruct c as [[] [] [] [] [] [] [] []]; intros H; vm_compute in H;
    try discriminate H; vm_compute; repeat split.
Qed.

(** A digit of [isdigit] that is not an ASCII digit is no white space and is
    not kept by the transformation. *)
Lemma superscript_char (c : ascii) :
  unicode_isdigit c = true ->
  is_ascii_digit c = false ->
  (code c <? 128)%nat = false
  /\ (code c <? 127)%nat = false
  /\ unicode_isspace_high c = false.
Proof.
  destruct c as [[] [] [] [] [] [] [] []]; intros H1 H2;
    vm_compute in H1, H2; try discriminate H1; try discriminate H2;
    vm_compute; repeat split.
Qed.

Lemma str_forallb_impl (p q : ascii -> bool) (s : string) :
  (forall c, p c = true -> q c = true) ->
  str_forallb p s = true -> str_forallb q s = true.
Proof.
  intros Hpq. induction s as [| c s IH]; cbn; [reflexivity |].
  intros H. apply andb_true_iff in H. destruct H as [Hc Hs].
  now rewrite (Hpq _ Hc), IH.
Qed.

(** Scanning digits up to the end of the buffer or to a character that is
    neither a digit nor an underscore. *)
Lemma scan_digits_decimal (s rest : string) (acc : Z) (n : nat) :
  str_forallb is_ascii_digit s = true ->
  (rest = EmptyString
   \/ exists c r, rest = String c r /\ is_ascii_digit c = false
                  /\ Ascii.eqb c "_" = false) ->
  scan_digits (s ++ rest) false acc n
  = Some (decimal_acc acc s, (n + String.length s)%nat, rest).
Proof.
  intros Hs Hrest. revert acc n Hs.
  induction s as [| c s IH]; intros acc n Hs.
  - cbn [append String.length decimal_acc]. rewrite Nat.add_0_r.
    destruct Hrest as [-> | [c [r [-> [Hc Hu]]]]]; cbn [scan_digits].
    + reflexivity.
    + now rewrite Hc, Hu.
  - cbn [str_forallb] in Hs. apply andb_true_iff in Hs. destruct Hs as [Hc Hs].
    cbn [append scan_digits String.length decimal_acc]. rewrite Hc.
    rewrite IH by assumption. now rewrite Nat.add_succ_r.
Qed.

(** [int] on one decimal digit or more: their value, unless there are more
    digits than the bound allows. *)
Lemma py_int_decimal (s : string) :
  is_decimal s = true ->
  py_int s = if exceeds_limit int_max_str_digits (String.length s) then None
             else Some (decimal_value s).
Proof.
  intros Hd. unfold py_int, transform_decimal_and_space.
  destruct s as [| c s]; [discriminate |]. unfold is_decimal in Hd.
  assert (Hascii : is_ascii_str (String c s) = true).
  { unfold is_ascii_str. revert Hd. apply str_forallb_impl.
    intros a Ha. apply (digit_char a Ha). }
  rewrite Hascii. unfold long_from_string.
  pose proof Hd as Hd'. cbn [str_forallb] in Hd'.
  apply andb_true_iff in Hd'. destruct Hd' as [Hc _].
  destruct (digit_char c Hc) as [Hsp [Hplus [Hminus [Hus _]]]].
  cbn [skip_spaces]. rewrite Hsp. cbn [strip_sign]. rewrite Hplus, Hminus.
  cbn [starts_with]. rewrite Hus.
  rewrite <- (append_empty_r (String c s)) at 1.
  rewrite (scan_digits_decimal _ "" 0 0 Hd) by (now left).
  cbn [Nat.add]. destruct (exceeds_limit _ _); [reflexivity |].
  reflexivity.
Qed.

Lemma transform_chars_superscript (s : string) :
  str_forallb unicode_isdigit s = true ->
  str_forallb is_ascii_digit s = false ->
  exists ds, transform_chars s = (ds ++ "?")%string
             /\ str_forallb is_ascii_digit ds = true.
Proof.
  induction s as [| c s IH]; cbn [str_forallb]; [discriminate |].
  intros Hu Hd. apply andb_true_iff in Hu. destruct Hu as [Hc Hs].
  destruct (is_ascii_digit c) eqn:Ec.
  - cbn [andb] in Hd. destruct (IH Hs Hd) as [ds [E Hds]].
    exists (String c ds). cbn [transform_chars append str_forallb].
    destruct (digit_char c Ec) as [_ [_ [_ [_ [H128 _]]]]].
    assert (H127 : (code c <? 127)%nat = true).
    { revert Ec. clear. destruct c as [[] [] [] [] [] [] [] []]; intros H;
        vm_compute in H; try discriminate H; reflexivity. }
    now rewrite H127, E, Ec, Hds.
  - exists "". destruct (superscript_char c Hc Ec) as [_ [H127 Hsp]].
    cbn [transform_chars]. rewrite H127, Hsp. split; reflexivity.
Qed.

(** A string that passes [isdigit] without being made of ASCII digits is
    refused by [int]. *)
Lemma py_int_superscript (s : string) :
  isdigit s = true -> is_decimal s = false -> py_int s = None.
Proof.
  intros Hi Hd. destruct s as [| c s]; [discriminate |].
  unfold isdigit in Hi. unfold is_decimal in Hd.
  unfold py_int, transform_decimal_and_space.
  assert (Hascii : is_ascii_str (String c s) = false).
  { clear - Hi Hd. revert Hi Hd. generalize (String c s). intros t.
    unfold is_ascii_str.
    induction t as [| a t IH]; cbn [str_forallb]; [discriminate |].
    intros Hu Hdd. apply andb_true_iff in Hu. destruct Hu as [Ha Ht].
    destruct (is_ascii_digit a) eqn:Ea.
    - destruct (digit_char a Ea) as [_ [_ [_ [_ [H128 _]]]]].
      rewrite H128. cbn [andb] in *. apply IH; assumption.
    - destruct (superscript_char a Ha Ea) as [H128 _].
      now rewrite H128. }
  rewrite Hascii.
  destruct (transform_chars_superscript _ Hi Hd) as [ds [-> Hds]].
  unfold long_from_string.
  assert (Hq : exists c r, "?" = String c r /\ is_ascii_digit c = false
                           /\ Ascii.eqb c "_" = false).
  { exists "?"%char, "". repeat split. }
  destruct ds as [| d ds].
  - reflexivity.
  - pose proof Hds as Hds'. cbn [str_forallb] in Hds'.
    apply andb_true_iff in Hds'. destruct Hds' as [Hc' _].
    destruct (digit_char d Hc') as [Hsp [Hplus [Hminus [Hus _]]]].
    cbn [append skip_spaces]. rewrite Hsp. cbn [strip_sign].
    rewrite Hplus, Hminus. cbn [starts_with]. rewrite Hus.
    change (String d (ds ++ "?")%string) with (String d ds ++ "?")%string.
    rewrite (scan_digits_decimal _ "?" 0 0 Hds) by (now right).
    destruct (exceeds_limit _ _); [reflexivity |].
    destruct (_ =? 0)%nat; reflexivity.
Qed.

Lemma is_decimal_isdigit (s : string) :
  is_decimal s = true -> isdigit s = true.
Proof.
  unfold is_decimal, isdigit. destruct s as [| c s]; [discriminate |].
  apply str_forallb_impl. intros a Ha. apply (digit_char a Ha).
Qed.

(** ** The source port (lines 93-102) *)

Lemma split_not_nil (sep : ascii) (s : string) : split sep s <> [].
Proof.
  destruct s as [| a s]; cbn; [discriminate |].
  destruct (Ascii.eqb a sep); [discriminate |].
  destruct (split sep s); discriminate.
Qed.

Lemma join_cons (sep : ascii) (p : string) (ps : list string) :
  ps <> [] -> join sep (p :: ps) = (p ++ String sep (join sep ps))%string.
Proof. destruct ps; [congruence | reflexivity]. Qed.

Lemma join_split (sep : ascii) (s : string) : join sep (split sep s) = s.
Proof.
  induction s as [| a s IH]; cbn [split]; [reflexivity |].
  destruct (Ascii.eqb a sep) eqn:E.
  - apply Ascii.eqb_eq in E. subst.
    rewrite join_cons by apply split_not_nil. now rewrite IH.
  - destruct (split sep s) as [| p ps] eqn:Es; [now destruct (split_not_nil sep s) |].
    destruct ps as [| q ps].
    + cbn in *. now rewrite IH.
    + rewrite join_cons by discriminate. rewrite join_cons in IH by discriminate.
      cbn [append]. now rewrite IH.
Qed.

Lemma split_no_sep (sep : ascii) (s : string) :
  str_contains sep s = false -> split sep s = [s].
Proof.
  induction s as [| a s IH]; cbn; [reflexivity |].
  intros H. apply orb_false_iff in H. destruct H as [Ha Hs].
  now rewrite Ha, IH.
Qed.

Lemma split_app (sep : ascii) (a b : string) :
  str_contains sep a = false ->
  split sep (a ++ String sep b) = a :: split sep b.
Proof.
  induction a as [| c a IH]; cbn [append split str_contains].
  - intros _. now rewrite Ascii.eqb_refl.
  - intros H. apply orb_false_iff in H. destruct H as [Hc Ha].
    now rewrite Hc, IH.
Qed.

Lemma str_contains_app (sep : ascii) (a b : string) :
  str_contains sep (a ++ String sep b) = true.
Proof.
  induction a as [| c a IH]; cbn [append str_contains].
  - now rewrite Ascii.eqb_refl.
  - rewrite IH. apply orb_true_r.
Qed.

Lemma decimal_no_dash (s : string) :
  str_forallb is_ascii_digit s = true -> str_contains "-" s = false.
Proof.
  induction s as [| c s IH]; cbn; [reflexivity |].
  intros H. apply andb_true_iff in H. destruct H as [Hc Hs].
  destruct (digit_char c Hc) as [_ [_ [Hm _]]]. now rewrite Hm, IH.
Qed.

Lemma is_decimal_no_dash (s : string) :
  is_decimal s = true -> str_contains "-" s = false.
Proof.
  unfold is_decimal. destruct s; [discriminate | apply decimal_no_dash].
Qed.

Lemma int_of_str_ok (part : string) (z : Z) :
  isdigit part = true ->
  int_of_str part = inr z ->
  is_decimal part = true
  /\ exceeds_limit int_max_str_digits (String.length part) = false
  /\ z = decimal_value part.
Proof.
  unfold int_of_str. intros Hi. destruct (is_decimal part) eqn:Ed.
  - rewrite (py_int_decimal _ Ed).
    destruct (exceeds_limit _ _); [discriminate |].
    intros H. inversion H. auto.
  - now rewrite (py_int_superscript _ Hi Ed).
Qed.

Lemma validate_source_port_str (s : string) :
  validate_source_port (PStr s) = inr tt
  <-> str_contains "-" s = false \/ exists a b, range_bounds s a b.
Proof.
  unfold validate_source_port. cbn [is_not_None]. split.
  - intros H. destruct (str_contains "-" s) eqn:Ec; [| now left]. right.
    pose proof (join_split "-" s) as Hj.
    destruct (split "-" s) as [| a [| b [| x parts]]];
      cbn [List.length Nat.eqb negb orb forallb andb] in H; try discriminate H.
    destruct (isdigit a) eqn:Ea; cbn [andb negb] in H; [| discriminate H].
    destruct (isdigit b) eqn:Eb; cbn [andb negb] in H; [| discriminate H].
    destruct (int_of_str a) as [e | start] eqn:Es; cbn [bind] in H;
      [discriminate H |].
    destruct (int_of_str b) as [e | end_] eqn:Ee; cbn [bind] in H;
      [discriminate H |].
    destruct (int_of_str_ok _ _ Ea Es) as [Hda [Hla ->]].
    destruct (int_of_str_ok _ _ Eb Ee) as [Hdb [Hlb ->]].
    destruct ((0 <=? decimal_value a) && (decimal_value a <=? decimal_value b)
              && (decimal_value b <=? 65535)) eqn:Er;
      cbn [negb] in H; [| discriminate H].
    exists a, b. unfold range_bounds.
    apply andb_true_iff in Er. destruct Er as [Er H3].
    apply andb_true_iff in Er. destruct Er as [H1 H2].
    apply Z.leb_le in H1, H2, H3. cbn in Hj. repeat split; auto.
  - intros [Hc | [a [b [-> [Hda [Hdb [Hla [Hlb [[H1 H2] H3]]]]]]]]].
    + now rewrite Hc.
    + rewrite str_contains_app.
      rewrite (split_app _ _ _ (is_decimal_no_dash _ Hda)).
      rewrite (split_no_sep _ _ (is_decimal_no_dash _ Hdb)).
      cbn [List.length Nat.eqb negb orb forallb].
      rewrite (is_decimal_isdigit _ Hda), (is_decimal_isdigit _ Hdb).
      cbn [andb negb]. unfold int_of_str.
      rewrite (py_int_decimal _ Hda), (py_int_decimal _ Hdb), Hla, Hlb.
      cbn [bind ret].
      apply Z.leb_le in H1, H2, H3. now rewrite H1, H2, H3.
Qed.

Lemma validate_source_port_None : validate_source_port PNone = inr tt.
Proof. reflexivity. Qed.

Lemma validate_source_port_int (p : Z) :
  validate_source_port (PInt p)
  = if (0 <=? p) && (p <=? 65535) then inr tt
    else if exceeds_limit int_max_str_digits (decimal_digits p)
         then inl ValueError
         else inl (ZMapConfigError (msg_source_port (PInt p))).
Proof.
  unfold validate_source_port, chain_le.
  cbn [is_not_None isinstance_int int_le le_int bind ret].
  destruct (0 <=? p); cbn [bind ret negb andb];
    [destruct (p <=? 65535); cbn [bind ret negb andb] |];
    try reflexivity;
    rewrite raise_config_error_eq; unfold msg_source_port;
    rewrite renders_one; cbn [prints];
    destruct (exceeds_limit _ _); reflexivity.
Qed.

Lemma _validate_with_source_port (c : ZMapScanConfig) (v : pyval) :
  _validate (with_field c "source_port" v)
  = checks (target_port c) (rate c) (bandwidth c) v (max_targets c)
           (gateway_mac c) (source_mac c) (target_mac c).
Proof. rewrite _validate_checks. reflexivity. Qed.

(** C5, as the code has it.  An integer source port is accepted exactly in
    [0, 65535].  A string is accepted exactly when it holds no hyphen, in
    which case nothing is checked, or when it is [start-end] with both bounds
    written in decimal digits (no more of them than the digit bound allows)
    and [0 <= start <= end <= 65535].  So ["5000-6000"] is accepted, while
    ["6000-5000"] and ["abc-100"] get a configuration error. *)
Theorem source_port_accepted_iff :
  (forall (c : ZMapScanConfig) (p : Z),
      accepted (with_field c "source_port" (PInt p))
      <-> 0 <= p <= 65535 /\ accepted (with_field c "source_port" PNone))
  /\ (forall (c : ZMapScanConfig) (s : string),
        accepted (with_field c "source_port" (PStr s))
        <-> (str_contains "-" s = false \/ exists a b, range_bounds s a b)
            /\ accepted (with_field c "source_port" PNone))
  /\ constructs [("source_port", PStr "5000-6000")]
  /\ new [("source_port", PStr "6000-5000")]
     = inl (ZMapConfigError (msg_source_port_range_bounds (PStr "6000-5000")))
  /\ new [("source_port", PStr "abc-100")]
     = inl (ZMapConfigError (msg_source_port_range (PStr "abc-100"))).
Proof.
  split; [| split; [| repeat split]].
  - intros c p.
    rewrite !accepted_iff, !_validate_with_source_port, !checks_ok_iff.
    rewrite validate_source_port_int, validate_source_port_None.
    destruct ((0 <=? p) && (p <=? 65535)) eqn:E.
    + apply in_port_range in E. tauto.
    + split.
      * intros [_ [_ [H _]]]. destruct (exceeds_limit _ _); discriminate.
      * intros [H _]. apply in_port_range in H. congruence.
  - intros c s.
    rewrite !accepted_iff, !_validate_with_source_port, !checks_ok_iff.
    rewrite validate_source_port_str, validate_source_port_None. tauto.
Qed.

(** ** [max_targets] (lines 104-109) *)

Lemma py_int_signed (c : ascii) (d : string) :
  c = "+"%char \/ c = "-"%char ->
  is_decimal d = true ->
  py_int (String c d)
  = if exceeds_limit int_max_str_digits (String.length d) then None
    else Some (if Ascii.eqb c "-" then - decimal_value d else decimal_value d).
Proof.
  intros Hc Hd. unfold py_int, transform_decimal_and_space.
  destruct d as [| x d]; [discriminate |]. unfold is_decimal in Hd.
  assert (Hascii : is_ascii_str (String c (String x d)) = true).
  { assert (Hd2 : is_ascii_str (String x d) = true).
    { unfold is_ascii_str. revert Hd. apply str_forallb_impl.
      intros a Ha. apply (digit_char a Ha). }
    unfold is_ascii_str in *.
    change (str_forallb ?p (String c ?t)) with (p c && str_forallb p t).
    rewrite Hd2. destruct Hc as [-> | ->]; reflexivity. }
  rewrite Hascii. unfold long_from_string.
  pose proof Hd as Hd'. cbn [str_forallb] in Hd'.
  apply andb_true_iff in Hd'. destruct Hd' as [Hx _].
  destruct (digit_char x Hx) as [_ [_ [_ [Hus _]]]].
  assert (E : strip_sign (skip_spaces (String c (String x d)))
              = (Ascii.eqb c "-", String x d)).
  { destruct Hc as [-> | ->]; reflexivity. }
  rewrite E. cbn [starts_with]. rewrite Hus.
  rewrite <- (append_empty_r (String x d)) at 1.
  rewrite (scan_digits_decimal _ "" 0 0 Hd) by (now left).
  cbn [Nat.add]. destruct (exceeds_limit _ _); reflexivity.
Qed.

Lemma validate_max_targets_str (s : string) :
  validate_max_targets (PStr s) = inr tt
  <-> endswith s "%" = true \/ exists z, py_int s = Some z.
Proof.
  unfold validate_max_targets. destruct (endswith s "%"); cbn [negb].
  - split; auto.
  - destruct (py_int s) as [z |]; split; eauto; try discriminate.
    intros [H | [z H]]; discriminate.
Qed.

Lemma _validate_with_max_targets (c : ZMapScanConfig) (v : pyval) :
  _validate (with_field c "max_targets" v)
  = checks (target_port c) (rate c) (bandwidth c) (source_port c) v
           (gateway_mac c) (source_mac c) (target_mac c).
Proof. rewrite _validate_checks. reflexivity. Qed.

(** C6, as the code has it.  A string given as [max_targets] is accepted
    exactly when it ends with ['%'], whatever comes before, or when [int]
    accepts it; any other string gets the configuration error of
    [max_targets].  [int] accepts decimal digits, after a sign or not, as
    long as there are no more digits than the digit bound allows.  So
    ["1000"], ["10%"] and also ["abc%"] are accepted, and ["abc"] is not. *)
Theorem max_targets_string_accepted_iff :
  (forall (c : ZMapScanConfig) (s : string),
      accepted (with_field c "max_targets" (PStr s))
      <-> (endswith s "%" = true \/ exists z, py_int s = Some z)
          /\ accepted (with_field c "max_targets" PNone))
  /\ (forall (s : string) (e : exn),
        validate_max_targets (PStr s) = inl e ->
        e = ZMapConfigError (msg_max_targets (PStr s)))
  /\ (forall d : string,
        is_decimal d = true ->
        exceeds_limit int_max_str_digits (String.length d) = false ->
        py_int d = Some (decimal_value d)
        /\ py_int (String "+" d) = Some (decimal_value d)
        /\ py_int (String "-" d) = Some (- decimal_value d))
  /\ constructs [("max_targets", PStr "1000")]
  /\ constructs [("max_targets", PStr "10%")]
  /\ constructs [("max_targets", PStr "abc%")]
  /\ new [("max_targets", PStr "abc")]
     = inl (ZMapConfigError (msg_max_targets (PStr "abc"))).
Proof.
  split; [| split; [| split; [| repeat split]]].
  - intros c s.
    rewrite !accepted_iff, !_validate_with_max_targets, !checks_ok_iff.
    rewrite validate_max_targets_str.
    change (validate_max_targets PNone) with (inr tt : result unit). tauto.
  - intros s e. apply validate_max_targets_raises.
  - intros d Hd Hl.
    rewrite (py_int_decimal _ Hd), !py_int_signed by auto. rewrite Hl.
    repeat split.
Qed.

(** ** Failures *)

Lemma well_typed_field (c : ZMapScanConfig) (name : string) (v : pyval)
    (t : ty) :
  well_typed c = true ->
  In (name, v) (asdict c) ->
  assoc name annotations = Some t ->
  has_type t v = true.
Proof.
  unfold well_typed. rewrite forallb_forall. intros H Hin Ht.
  specialize (H _ Hin). cbn [fst snd] in H. now rewrite Ht in H.
Qed.

Lemma validate_rate_bandwidth_raises (r bw : pyval) (e : exn) :
  validate_rate_bandwidth r bw = inl e -> e = ZMapConfigError msg_rate_bandwidth.
Proof.
  unfold validate_rate_bandwidth. destruct (_ && _); [| discriminate].
  intros H. now inversion H.
Qed.

(** When the source port has a text and its parts that pass [isdigit] are
    accepted by [int], its check raises no [ValueError]. *)
Lemma validate_source_port_no_ValueError (sp : pyval) :
  prints sp = true ->
  digit_parts_convert sp = true -> validate_source_port sp <> inl ValueError.
Proof.
  intros Hpr.
  destruct sp as [| b | z | f | s | bs | l | l | d];
    try (intros _; cbn; discriminate).
  - intros _. destruct b; cbn; discriminate.
  - intros _. rewrite validate_source_port_int.
    cbn [prints] in Hpr. apply negb_true_iff in Hpr. rewrite Hpr.
    destruct ((0 <=? z) && (z <=? 65535)); discriminate.
  - unfold validate_source_port, digit_parts_convert, int_of_str.
    cbn [is_not_None].
    intros Hc. destruct (str_contains "-" s); [| discriminate].
    cbn [negb orb] in Hc.
    destruct (split "-" s) as [| a [| b [| x parts]]];
      cbn [List.length Nat.eqb negb orb forallb andb] in *; try discriminate.
    destruct (isdigit a); cbn [negb orb andb] in *; [| discriminate].
    destruct (isdigit b); cbn [negb orb andb] in *; [| discriminate].
    destruct (py_int a) as [start |]; [| discriminate Hc].
    destruct (py_int b) as [end_ |]; [| discriminate Hc].
    cbn [bind ret].
    destruct (negb ((0 <=? start) && (start <=? end_) && (end_ <=? 65535)));
      discriminate.
Qed.

Lemma validate_mac_typed (mac_field : string) (mac : pyval) (e : exn) :
  has_type (TOptional TStr) mac = true ->
  validate_mac mac_field mac = inl e ->
  e = ZMapConfigError (msg_mac mac_field mac).
Proof.
  intros Ht H. destruct (validate_mac_raises _ _ _ H) as [-> | ->]; auto.
  destruct mac; try discriminate Ht; try discriminate H.
  rewrite validate_mac_str in H.
  destruct (re_match_to_dollar mac_pattern s); discriminate.
Qed.

(** With every field of its announced type, construction fails with a
    configuration error only, and its message is one of the nine: this apart
    from the two slips that let a [ValueError] through, an integer port too
    long to be printed in the message, and a source-port part that [isdigit]
    lets through and [int] refuses. *)
Lemma __init___raises_config_error (c : ZMapScanConfig) (e : exn) :
  well_typed c = true ->
  prints (target_port c) = true ->
  prints (source_port c) = true ->
  digit_parts_convert (source_port c) = true ->
  __init__ c = inl e ->
  exists msg, e = ZMapConfigError msg /\ In msg (config_messages c).
Proof.
  intros Ht Hpt Hps Hp H. apply __init___raises in H.
  rewrite _validate_checks in H.
  apply checks_raises in H. unfold config_messages.
  destruct H as [H | [H | [H | [H | [H | [H | H]]]]]].
  - apply validate_target_port_typed in H.
    + destruct H as [[-> _] | [_ Hn]]; [| congruence].
      eexists. split; [reflexivity |]. cbn. tauto.
    + apply (well_typed_field c "target_port"); [assumption | | reflexivity].
      cbn. tauto.
  - apply validate_rate_bandwidth_raises in H. subst.
    eexists. split; [reflexivity |]. cbn. tauto.
  - pose proof (validate_source_port_no_ValueError _ Hps Hp) as Hv.
    destruct (validate_source_port_raises _ _ H) as [-> | [-> | [-> | ->]]];
      [contradiction | | |];
      (eexists; split; [reflexivity |]; cbn; tauto).
  - apply validate_max_targets_raises in H. subst.
    eexists. split; [reflexivity |]. cbn. tauto.
  - apply validate_mac_typed in H.
    + subst. eexists. split; [reflexivity |]. cbn. tauto.
    + apply (well_typed_field c "gateway_mac"); [assumption | | reflexivity].
      cbn. tauto.
  - apply validate_mac_typed in H.
    + subst. eexists. split; [reflexivity |]. cbn. tauto.
    + apply (well_typed_field c "source_mac"); [assumption | | reflexivity].
      cbn. tauto.
  - apply validate_mac_typed in H.
    + subst. eexists. split; [reflexivity |]. cbn. tauto.
    + apply (well_typed_field c "target_mac"); [assumption | | reflexivity].
      cbn. tauto.
Qed.

Lemma keywords_raises (d : list (pykey * pyval)) (e : exn) :
  keywords d = inl e -> e = TypeError.
Proof.
  induction d as [| [k v] d IH]; cbn [keywords]; [discriminate |].
  destruct k; try (intros H; now inversion H).
  destruct (keywords d) as [e' | kw]; cbn [bind]; [| discriminate].
  intros H. inversion H. subst. now apply IH.
Qed.

(** C8, as the code has it.  A configuration whose fields have their
    announced types, whose target port and source port, when they are
    integers, are within the digit bound (so that they can be printed in a
    message), and whose source-port parts, when they pass [isdigit], are
    accepted by [int], fails, when it fails, with a [ZMapConfigError] holding
    one message out of nine, most of which quote the offending value.
    [from_dict] goes through the same construction, but raises a
    [TypeError], not a configuration error, when the data is not a
    dictionary, when a key is not a string, and when a key names no field;
    [from_json] raises the decoder's error on a text that is not JSON. *)
Theorem failures_of_construction_and_decoding :
  (forall (c : ZMapScanConfig) (e : exn),
      well_typed c = true ->
      prints (target_port c) = true ->
      prints (source_port c) = true ->
      digit_parts_convert (source_port c) = true ->
      __init__ c = inl e ->
      exists msg, e = ZMapConfigError msg /\ In msg (config_messages c))
  /\ (forall (d : list (pykey * pyval)) (kwargs : list (string * pyval)),
        keywords d = inr kwargs ->
        from_dict (PDict d)
        = if forallb (fun kv => is_field (fst kv)) kwargs
          then __init__ (assign_fields kwargs)
          else inl TypeError)
  /\ (forall (d : list (pykey * pyval)) (e : exn),
        keywords d = inl e -> from_dict (PDict d) = inl TypeError)
  /\ (forall data : pyval,
        match data with
        | PDict _ => True
        | _ => from_dict data = inl TypeError
        end)
  /\ from_json NotJson = inl JSONDecodeError
  /\ (forall j : json,
        from_json (Document j) = (data <- decode j ;; from_dict data)).
Proof.
  split; [exact __init___raises_config_error |].
  split; [| split; [| split; [| split; [| reflexivity]]]].
  - intros d kwargs H. unfold from_dict. rewrite H. reflexivity.
  - intros d e H. unfold from_dict. rewrite H.
    now rewrite (keywords_raises _ _ H).
  - intros [| b | z | f | s | bs | l | l | d]; auto.
  - reflexivity.
Qed.

(** ** The order of the checks *)

Lemma first_failure_raises (rs : list (result unit)) (e : exn) :
  first_failure rs = inl e
  <-> exists before after,
        rs = before ++ inl e :: after
        /\ Forall (fun r => r = inr tt) before.
Proof.
  split.
  - induction rs as [| [e' | []] rs IH]; cbn [first_failure].
    + discriminate.
    + intros H. inversion H. subst. exists [], rs. split; [reflexivity | constructor].
    + intros H. destruct (IH H) as [before [after [-> Hb]]].
      exists (inr tt :: before), after. split; [reflexivity |].
      constructor; [reflexivity | assumption].
  - intros [before [after [-> Hb]]].
    induction Hb as [| r before Hr Hb IH]; cbn [app first_failure].
    + reflexivity.
    + subst r. exact IH.
Qed.

Lemma first_failure_returns (rs : list (result unit)) :
  first_failure rs = inr tt <-> Forall (fun r => r = inr tt) rs.
Proof.
  induction rs as [| [e' | []] rs IH]; cbn [first_failure].
  - split; [constructor | reflexivity].
  - split; [discriminate |]. intros H. inversion H. discriminate.
  - rewrite IH. split.
    + intros H. constructor; [reflexivity | assumption].
    + intros H. now inversion H.
Qed.

Lemma _validate_first_failure (self : ZMapScanConfig) :
  _validate self = first_failure (check_results self).
Proof.
  rewrite _validate_checks. unfold checks, check_results.
  cbn [first_failure].
  destruct (validate_target_port _) as [e | []]; [reflexivity |].
  destruct (validate_rate_bandwidth _ _) as [e | []]; [reflexivity |].
  destruct (validate_source_port _) as [e | []]; [reflexivity |].
  destruct (validate_max_targets _) as [e | []]; [reflexivity |].
  destruct (validate_mac "gateway_mac" _) as [e | []]; [reflexivity |].
  destruct (validate_mac "source_mac" _) as [e | []]; [reflexivity |].
  destruct (validate_mac "target_mac" _) as [e | []]; reflexivity.
Qed.

(** X1.  Construction reports one error, that of the first check that
    fails in the order target port, rate with bandwidth, source port,
    [max_targets], gateway MAC, source MAC, target MAC: it raises [e] exactly
    when some check raises [e] and every check before it returns; it succeeds
    exactly when all seven return. *)
Theorem construction_reports_first_failing_check (c : ZMapScanConfig) :
  (forall e : exn,
      __init__ c = inl e
      <-> exists before after,
            check_results c = before ++ inl e :: after
            /\ Forall (fun r => r = inr tt) before)
  /\ (accepted c <-> Forall (fun r => r = inr tt) (check_results c)).
Proof.
  split.
  - intros e. rewrite __init___raises, _validate_first_failure.
    apply first_failure_raises.
  - rewrite accepted_iff, _validate_first_failure.
    apply first_failure_returns.
Qed.

(** ** Saving to a file and loading from it *)

Lemma fs_update_same (fs : filesystem) (path : string) (f : file) :
  fs_update fs path f path = f.
Proof. unfold fs_update. now rewrite String.eqb_refl. Qed.

(** Just after [open(filename, 'w')] the path names what it named, emptied. *)
Lemma open_w_truncates (fs fs1 : filesystem) (filename : string) :
  open_w fs filename = Some fs1 ->
  fs1 filename = truncated (fs filename)
  /\ opens_w (fs filename) = true
  /\ kind (fs filename) <> Directory.
Proof.
  unfold open_w. destruct (kind (fs filename)) eqn:Ek; try discriminate;
    (destruct (opens_w (fs filename)); [| discriminate]);
    intros H; inversion H; rewrite fs_update_same;
    repeat split; discriminate.
Qed.



(** X3.  [save_to_file] opens the file before it encodes the
    configuration.  When the encoding raises, the exception goes through and
    the file is left empty, whatever it held before: loading it afterwards
    raises the decoder's error.  This for every path that opens for writing:
    a regular file or a path that named nothing holds the empty text
    afterwards, the null device stays what it is, and the later load raises
    [OSError] instead only if the file cannot be opened for reading. *)
Theorem failed_save_leaves_empty_file (c : ZMapScanConfig) (filename : string)
    (fs : filesystem) (e : exn) :
  open_w fs filename <> None ->
  to_json c = inl e ->
  exists fs' : filesystem,
    save_to_file c filename fs = (inl (Raised e), fs')
    /\ kind (fs' filename)
       = match kind (fs filename) with
         | Null => Null
         | _ => Regular (Text empty_text)
         end
    /\ load_from_file filename fs'
       = (inl (if opens_r (fs filename)
               then Raised JSONDecodeError
               else OSError), fs').
Proof.
  intros Ho He. unfold save_to_file.
  destruct (open_w fs filename) as [fs1 |] eqn:E; [| contradiction].
  rewrite He. exists fs1.
  destruct (open_w_truncates _ _ _ E) as [H1 [_ Hd]].
  unfold load_from_file, read_text. rewrite H1. unfold truncated.
  destruct (fs filename) as [k w r wf]. cbn [kind opens_r] in *.
  destruct k; try contradiction; cbn [kind opens_r with_kind];
    (split; [reflexivity |]); (split; [reflexivity |]);
    destruct r; reflexivity.
Qed.

(** ** The shape of an accepted MAC address *)

Lemma hex_octets_shape (n : nat) (t : string) :
  hex_octets n t = true ->
  String.length t = (3 * n - 1)%nat
  /\ str_forallb (fun ch => is_hex ch || is_sep ch) t = true.
Proof.
  revert t. induction n as [| m IH]; intros t H.
  - destruct t as [| a [| b rest]]; cbn in H; try discriminate.
    rewrite andb_false_r in H. discriminate.
  - destruct t as [| a [| b rest]]; cbn [hex_octets] in H; try discriminate.
    apply andb_true_iff in H. destruct H as [Hab H].
    apply andb_true_iff in Hab. destruct Hab as [Ha Hb].
    destruct m as [| m'].
    + destruct rest; [| discriminate]. cbn. now rewrite Ha, Hb.
    + destruct rest as [| d rest']; [discriminate |].
      apply andb_true_iff in H. destruct H as [Hd H].
      destruct (IH _ H) as [Hlen Hall].
      cbn [String.length str_forallb]. rewrite Ha, Hb, Hd, Hall, Hlen.
      rewrite orb_true_r. split; [lia | reflexivity].
Qed.

(** X5.  In an accepted configuration a MAC address given as a string is
    made of 17 characters, each a hexadecimal digit, a colon or a hyphen,
    followed by one line feed or by nothing: no blank, quote or other
    character gets through. *)
Theorem accepted_mac_shape (c : ZMapScanConfig) (s : string) :
  accepted c ->
  gateway_mac c = PStr s \/ source_mac c = PStr s \/ target_mac c = PStr s ->
  exists t : string,
    (s = t \/ s = (t ++ String LF "")%string)
    /\ String.length t = 17%nat
    /\ str_forallb (fun ch => is_hex ch || is_sep ch) t = true.
Proof.
  intros Hc Hs. apply accepted_iff in Hc. rewrite _validate_checks in Hc.
  apply checks_ok_iff in Hc.
  destruct Hc as [_ [_ [_ [_ [Hg [Hsm Ht]]]]]].
  assert (Hok : canonical_mac s = true
                \/ exists t, s = (t ++ String LF "")%string
                             /\ canonical_mac t = true).
  { destruct Hs as [E | [E | E]]; rewrite E in *;
      eapply validate_mac_str_ok; eassumption. }
  destruct Hok as [H | [t [-> H]]].
  - exists s. destruct (hex_octets_shape _ _ H) as [Hl Ha]. auto.
  - exists t. destruct (hex_octets_shape _ _ H) as [Hl Ha]. auto.
Qed.

(** ** The order of the entries of a dictionary *)

Lemma assoc_perm {A : Type} (k : string) (l l' : list (string * A)) :
  Permutation l l' -> NoDup (map fst l) -> assoc k l = assoc k l'.
Proof.
  induction 1 as [| [k1 v1] l l' Hp IH | [k1 v1] [k2 v2] l | l l' l'' H1 IH1 H2 IH2];
    intros Hnd.
  - reflexivity.
  - cbn [assoc]. inversion Hnd; subst. now rewrite IH.
  - cbn [assoc]. destruct (String.eqb k k2) eqn:E2, (String.eqb k k1) eqn:E1;
      try reflexivity.
    apply String.eqb_eq in E1, E2. subst.
    inversion Hnd as [| ? ? Hin _]; subst. exfalso. apply Hin. now left.
  - rewrite IH1 by assumption. apply IH2.
    apply (Permutation_NoDup (Permutation_map fst H1) Hnd).
Qed.

Lemma forallb_perm {A : Type} (p : A -> bool) (l l' : list A) :
  Permutation l l' -> forallb p l = forallb p l'.
Proof.
  induction 1 as [| x l l' Hp IH | x y l | l l' l'' H1 IH1 H2 IH2];
    cbn [forallb]; try congruence.
  destruct (p x), (p y); reflexivity.
Qed.

Lemma keywords_ok_iff (d : list (pykey * pyval)) :
  (exists kw, keywords d = inr kw)
  <-> forallb (fun kv => is_str_key (fst kv)) d = true.
Proof.
  induction d as [| [k v] d IH]; cbn [keywords forallb fst].
  - split; eauto.
  - destruct k; cbn [is_str_key andb];
      try (split; [intros [kw H]; discriminate | discriminate]).
    rewrite <- IH. split.
    + intros [kw H]. destruct (keywords d) as [e | kw']; [discriminate | eauto].
    + intros [kw H]. rewrite H. cbn. eauto.
Qed.

Lemma keywords_keys (d : list (pykey * pyval)) (kw : list (string * pyval)) :
  keywords d = inr kw -> d = map (fun kv => (KStr (fst kv), snd kv)) kw.
Proof.
  revert kw. induction d as [| [k v] d IH]; intros kw; cbn [keywords].
  - intros H. inversion H. reflexivity.
  - destruct k; try discriminate.
    destruct (keywords d) as [e | kw']; cbn [bind ret]; [discriminate |].
    intros H. inversion H. subst. cbn. f_equal. now apply IH.
Qed.

Lemma keywords_perm (d d' : list (pykey * pyval)) (kw : list (string * pyval)) :
  Permutation d d' ->
  keywords d = inr kw ->
  exists kw', keywords d' = inr kw' /\ Permutation kw kw'.
Proof.
  intros Hp. revert kw.
  induction Hp as [| [k v] l l' Hp IH | [k1 v1] [k2 v2] l | l l' l'' H1 IH1 H2 IH2];
    intros kw; cbn [keywords].
  - intros H. inversion H. exists []. split; [reflexivity | constructor].
  - destruct k; try discriminate.
    destruct (keywords l) as [e | kw0]; cbn [bind ret]; [discriminate |].
    intros H. inversion H. subst.
    destruct (IH kw0 eq_refl) as [kw' [E P]]. rewrite E. cbn.
    eexists. split; [reflexivity | now constructor].
  - destruct k1, k2; try discriminate.
    destruct (keywords l) as [e | kw0]; cbn [bind ret]; [discriminate |].
    intros H. inversion H. subst. eexists. split; [reflexivity | constructor].
  - intros H. destruct (IH1 _ H) as [kw1 [E1 P1]].
    destruct (IH2 _ E1) as [kw2 [E2 P2]].
    exists kw2. split; [assumption | now transitivity kw1].
Qed.

Lemma assign_fields_ext (kw kw' : list (string * pyval)) :
  (forall name, assoc name kw = assoc name kw') ->
  assign_fields kw = assign_fields kw'.
Proof.
  intros H. unfold assign_fields, arg. now rewrite !H.
Qed.

(** X6.  [from_dict] does not depend on the order of the entries of the
    dictionary it is given: two dictionaries with the same entries give the
    same configuration, or fail with the same error. *)
Theorem from_dict_ignores_order (d d' : list (pykey * pyval)) :
  NoDup (map fst d) ->
  Permutation d d' ->
  from_dict (PDict d) = from_dict (PDict d').
Proof.
  intros Hnd Hp. unfold from_dict.
  destruct (keywords d) as [e | kw] eqn:E.
  - rewrite (keywords_raises _ _ E).
    destruct (keywords d') as [e' | kw'] eqn:E'.
    + now rewrite (keywords_raises _ _ E').
    + exfalso.
      assert (Hd : exists kw, keywords d = inr kw).
      { apply keywords_ok_iff.
        rewrite (forallb_perm _ _ _ Hp). apply keywords_ok_iff. eauto. }
      destruct Hd as [kw H]. congruence.
  - destruct (keywords_perm _ _ _ Hp E) as [kw' [E' P]]. rewrite E'.
    cbn [bind]. unfold new. rewrite (forallb_perm _ _ _ P).
    rewrite (assign_fields_ext kw kw'); [reflexivity |].
    intros name. apply assoc_perm; [assumption |].
    rewrite (keywords_keys _ _ E), map_map in Hnd. cbn [fst] in Hnd.
    rewrite <- (map_map fst KStr) in Hnd.
    apply NoDup_map_inv in Hnd. exact Hnd.
Qed.

(** ** Configurations that come from JSON *)










End Interpreter.

(** * Rate and bandwidth, whatever the digit bound *)

(** C3, what the code does.  A configuration with both [rate] and
    [bandwidth] set is never constructed, whatever the digit bound.  The
    exception is the configuration error of line 91 when the check of the
    target port returns.  With a target port of its announced type it is a
    configuration error in every case but one: an integer port that is out
    of range and too long to be printed makes the f-string of line 88 raise
    [ValueError] before the configuration error exists, which is what the
    call with [target_port=10**4300, rate=1000, bandwidth="10M"] gets under
    the default bound of 4300 digits.  With at most one of the two set, the
    error of line 91 is never raised. *)
Theorem rate_bandwidth_mutually_exclusive :
  (forall (digits : nat) (c : ZMapScanConfig),
      is_not_None (rate c) = true ->
      is_not_None (bandwidth c) = true ->
      (exists e, __init__ digits c = inl e)
      /\ (validate_target_port digits (target_port c) = inr tt ->
          __init__ digits c = inl (ZMapConfigError msg_rate_bandwidth))
      /\ (has_type (TOptional TInt) (target_port c) = true ->
          (__init__ digits c = inl ValueError
           <-> exists p,
                 target_port c = PInt p /\ ~ 0 <= p <= 65535
                 /\ exceeds_limit digits (decimal_digits p) = true)
          /\ (__init__ digits c <> inl ValueError ->
              exists msg, __init__ digits c = inl (ZMapConfigError msg))))
  /\ (forall (digits : nat) (c : ZMapScanConfig),
        rate c = PNone \/ bandwidth c = PNone ->
        __init__ digits c <> inl (ZMapConfigError msg_rate_bandwidth))
  /\ new 4300 [("rate", PInt 1000); ("bandwidth", PStr "10M")]
     = inl (ZMapConfigError msg_rate_bandwidth)
  /\ new 4300 [("target_port", PInt 70000); ("rate", PInt 1000);
               ("bandwidth", PStr "10M")]
     = inl (ZMapConfigError (msg_target_port (PInt 70000)))
  /\ new 4300 [("target_port", PInt (10 ^ 4300)); ("rate", PInt 1000);
               ("bandwidth", PStr "10M")]
     = inl ValueError.
Proof.
  split; [exact both_set_never_constructed |].
  split; [exact one_set_no_rate_bandwidth_error |].
  split; [reflexivity |]. split; [reflexivity |].
  vm_compute. reflexivity.
Qed.

(** * Concrete runs

    The interpreter's default digit bound, 4300, is used throughout. *)

Example py_int_samples :
  map (py_int 4300) ["12"; " +1_000 "; "-0"; "007"; "1__0"; "_1"; "1_"; "";
                     "+ 1"; "0x1"; "12.5"; "abc"]
  = [Some 12; Some 1000; Some 0; Some 7; None; None; None; None;
     None; None; None; None].
Proof. vm_compute. reflexivity. Qed.

Example str_of_Z_samples :
  map str_of_Z [0; 7; -12; 65535] = ["0"; "7"; "-12"; "65535"].
Proof. vm_compute. reflexivity. Qed.

Example split_samples :
  map (split "-") ["a-b-c"; "-"; "a-"; ""; "5000-6000"]
  = [["a"; "b"; "c"]; [""; ""]; ["a"; ""]; [""]; ["5000"; "6000"]].
Proof. reflexivity. Qed.

(** A target port that is a string is compared with an int: [TypeError]. *)
Example target_port_string_raises_TypeError :
  new 4300 [("target_port", PStr "80")] = inl TypeError.
Proof. reflexivity. Qed.

(** The superscript two passes [isdigit] and is refused by [int]: the
    [ValueError] of [int] escapes. *)
Example source_port_superscript_raises_ValueError :
  new 4300 [("source_port", PStr (String (ascii_of_nat 178) "-5"))]
  = inl ValueError.
Proof. vm_compute. reflexivity. Qed.

(** C1, counterexample: shard index 5 with 2 shards is constructed. *)
Lemma shard_index_above_count_is_accepted :
  (5 >= 2)
  /\ new 4300 [("shards", PInt 2); ("shard", PInt 5)]
     = inr (assign_fields [("shards", PInt 2); ("shard", PInt 5)]).
Proof. split; [lia | reflexivity]. Qed.

(** C5, counterexample: the string ["abc"] is neither an integer nor a
    range, and it is accepted as source port. *)
Lemma source_port_without_hyphen_is_accepted :
  spec_source_port_ok (PStr "abc") = false
  /\ new 4300 [("source_port", PStr "abc")]
     = inr (assign_fields [("source_port", PStr "abc")]).
Proof. split; reflexivity. Qed.

(** C6, counterexample: ["abc%"] has no numeric prefix, and it is accepted
    as [max_targets]. *)
Lemma max_targets_percent_without_number_is_accepted :
  spec_max_targets_ok "abc%" = false
  /\ new 4300 [("max_targets", PStr "abc%")]
     = inr (assign_fields [("max_targets", PStr "abc%")]).
Proof. split; reflexivity. Qed.

(** C8, counterexample: a dictionary with an unknown field makes
    [from_dict] raise a [TypeError], and so does its JSON text. *)
Lemma unknown_field_raises_TypeError :
  from_dict 4300 (PDict [(KStr "foo", PInt 1)]) = inl TypeError
  /\ from_json 4300 (Document (JObject [("foo", JInt 1)])) = inl TypeError.
Proof. split; reflexivity. Qed.

(** C9, counterexample: with only [target_port] set, the dictionary has
    four entries, the three flags among them. *)
Lemma only_target_port_set_gives_four_entries :
  new 4300 [("target_port", PInt 80)]
  = inr (assign_fields [("target_port", PInt 80)])
  /\ to_dict (assign_fields [("target_port", PInt 80)])
     = PDict [ (KStr "target_port", PInt 80);
               (KStr "vpn", PBool false);
               (KStr "dryrun", PBool false);
               (KStr "ignore_invalid_hosts", PBool false) ]
  /\ to_json 4300 (assign_fields [("target_port", PInt 80)])
     = inr (Document (JObject [ ("target_port", JInt 80);
                                ("vpn", JBool false);
                                ("dryrun", JBool false);
                                ("ignore_invalid_hosts", JBool false) ])).
Proof. repeat split. Qed.


(** With [vpn=None], which its annotation excludes, [to_dict] drops the
    flag and [from_dict] puts the default [False] in its place. *)
Example flag_None_is_not_restored :
  let c := assign_fields [("vpn", PNone)] in
  new 4300 [("vpn", PNone)] = inr c
  /\ well_typed c = false
  /\ from_dict 4300 (to_dict c) = inr (assign_fields []).
Proof. repeat split. Qed.

(** A NaN goes through JSON unchanged, but the decoded float is another
    object, and a NaN equals no other object: the decoded configuration,
    which has the same value in every field, does not compare equal to the
    encoded one. *)
Example json_round_trip_of_NaN :
  let c := assign_fields [("min_hitrate", PFloat S754_nan)] in
  exists decoded : ZMapScanConfig,
    new 4300 [("min_hitrate", PFloat S754_nan)] = inr c
    /\ (t <- to_json 4300 c ;; from_json 4300 t) = inr decoded
    /\ min_hitrate decoded = PFloat S754_nan
    /\ config_eq decoded c = false.
Proof. eexists. repeat split. Qed.

(** A tuple is written as a JSON array and comes back as a list: the
    decoded configuration is not equal to the encoded one, while the
    dictionary gives the tuple back. *)
Example json_round_trip_changes_tuples :
  let ports := [PInt 80; PInt 443] in
  let c := assign_fields
             [("user_metadata", PDict [(KStr "ports", PTuple ports)])] in
  let c' := assign_fields
              [("user_metadata", PDict [(KStr "ports", PList ports)])] in
  new 4300 [("user_metadata", PDict [(KStr "ports", PTuple ports)])] = inr c
  /\ well_typed c = true
  /\ every_field (json_faithful 4300) c = false
  /\ from_dict 4300 (to_dict c) = inr c
  /\ (t <- to_json 4300 c ;; from_json 4300 t) = inr c'
  /\ config_eq c' c = false.
Proof. repeat split. Qed.

(** An object that the encoder does not know, as [bytes], makes [to_json]
    raise [TypeError]; the dictionary still gives it back. *)
Example json_refuses_bytes :
  let c := assign_fields [("user_metadata", PDict [(KStr "raw", PBytes "ab")])] in
  new 4300 [("user_metadata", PDict [(KStr "raw", PBytes "ab")])] = inr c
  /\ from_dict 4300 (to_dict c) = inr c
  /\ to_json 4300 c = inl TypeError.
Proof. repeat split. Qed.

(** An integer port with 4301 digits is out of range, and the f-string that
    should quote it raises [ValueError]: no configuration error is built.
    The same holds of the source port. *)
Example long_port_raises_ValueError :
  new 4300 [("target_port", PInt (10 ^ 4300))] = inl ValueError
  /\ new 4300 [("source_port", PInt (- 10 ^ 4300))] = inl ValueError
  /\ new 4300 [("target_port", PInt (10 ^ 4299))]
     = inl (ZMapConfigError (msg_target_port (PInt (10 ^ 4299)))).
Proof. repeat split; vm_compute; reflexivity. Qed.


(** C6, witness: the bare integer ["1000"], unsigned and signed. *)
Lemma max_targets_witness :
  is_decimal "1000" = true
  /\ exceeds_limit 4300 (String.length "1000") = false
  /\ py_int 4300 "1000" = Some 1000
  /\ py_int 4300 "+1000" = Some 1000
  /\ py_int 4300 "-1000" = Some (- 1000).
Proof.
  split; [reflexivity |]. split; [reflexivity |].
  exact (proj1 (proj2 (proj2 (max_targets_string_accepted_iff 4300)))
           "1000" eq_refl eq_refl).
Defined.

(** C8, witness: the target port 70000, an int as announced, is refused
    with the configuration error that quotes it. *)
Lemma typed_failure_witness :
  let c := assign_fields [("target_port", PInt 70000)] in
  let e := ZMapConfigError (msg_target_port (PInt 70000)) in
  well_typed c = true
  /\ prints 4300 (target_port c) = true
  /\ prints 4300 (source_port c) = true
  /\ digit_parts_convert 4300 (source_port c) = true
  /\ __init__ 4300 c = inl e
  /\ exists msg, e = ZMapConfigError msg /\ In msg (config_messages c).
Proof.
  intros c e. repeat split.
  exact (proj1 (failures_of_construction_and_decoding 4300) c e
           eq_refl eq_refl eq_refl eq_refl eq_refl).
Defined.

(** C9, witness: in the call with [rate=5] only, [rate] is emitted, [seed],
    which was not passed, is omitted, and [vpn], not passed either, is
    emitted. *)
Lemma to_dict_witness :
  let kwargs := [("rate", PInt 5)] in
  In (KStr "rate", PInt 5) (items (to_dict (assign_fields kwargs)))
  /\ ~ In "seed" (set_fields (assign_fields kwargs))
  /\ In "vpn" (set_fields (assign_fields kwargs)).
Proof.
  intros kwargs.
  destruct (to_dict_keeps_fields_that_are_not_None 4300)
    as [_ [_ [_ [Hset Hunset]]]].
  split; [| split].
  - apply (Hset kwargs "rate" (PInt 5)); [cbn; tauto | reflexivity | discriminate].
  - intros H. apply (Hunset kwargs "seed") in H; [| cbn; tauto | reflexivity].
    cbn in H. intuition discriminate.
  - apply (Hunset kwargs "vpn"); [cbn; tauto | reflexivity | cbn; tauto].
Defined.

(** C10, witness: [notes] is not among the checked fields, and assigning
    it keeps the default configuration accepted. *)
Lemma unchecked_field_witness :
  ~ In "notes" checked_fields
  /\ accepted 4300 (with_field defaults "notes" (PStr "overnight run")).
Proof.
  assert (Hn : ~ In "notes" checked_fields) by (cbn; intuition discriminate).
  split; [exact Hn |].
  apply (proj2 (proj2 (unchecked_fields_accept_any_value 4300))
           defaults "notes" (PStr "overnight run") Hn).
  reflexivity.
Defined.


(** Saved to the null device, the same configuration is lost: the save
    returns, and the load finds an empty text. *)
Example save_to_null_device :
  let c := assign_fields [("target_port", PInt 80)] in
  let fs := only_file "/dev/null" dev_null in
  fst (save_to_file 4300 c "/dev/null" fs) = inr tt
  /\ snd (save_to_file 4300 c "/dev/null" fs) "/dev/null" = dev_null
  /\ fst (load_from_file 4300 "/dev/null"
            (snd (save_to_file 4300 c "/dev/null" fs)))
     = inl (Raised JSONDecodeError).
Proof. repeat split. Qed.

(** Saved to a file that cannot be read, it is stored, and the load raises
    [OSError]. *)
Example save_to_write_only_file :
  let c := assign_fields [("target_port", PInt 80)] in
  let fs := only_file "scan.json" (regular_file (Text empty_text) true false) in
  fst (save_to_file 4300 c "scan.json" fs) = inr tt
  /\ kind (snd (save_to_file 4300 c "scan.json" fs) "scan.json")
     = Regular (Text (Document (JObject [ ("target_port", JInt 80);
                                          ("vpn", JBool false);
                                          ("dryrun", JBool false);
                                          ("ignore_invalid_hosts", JBool false) ])))
  /\ fst (load_from_file 4300 "scan.json"
            (snd (save_to_file 4300 c "scan.json" fs)))
     = inl OSError.
Proof. repeat split. Qed.

(** Saved on a device without room, it is not stored: the write raises
    [OSError]. *)
Example save_without_room :
  let c := assign_fields [("target_port", PInt 80)] in
  let full := {| kind := Regular (Text empty_text); opens_w := true;
                 opens_r := true; write_fails := Some (Text NotJson) |} in
  fst (save_to_file 4300 c "scan.json" (only_file "scan.json" full)) = inl OSError.
Proof. reflexivity. Qed.

(** A file whose bytes do not decode makes the load raise
    [UnicodeDecodeError]; a directory and a missing file make it raise
    [OSError]. *)
Example load_failures :
  let dir := {| kind := Directory; opens_w := true; opens_r := true;
                write_fails := None |} in
  fst (load_from_file 4300 "scan.json"
         (only_file "scan.json" (regular_file Undecodable true true)))
  = inl UnicodeDecodeError
  /\ fst (load_from_file 4300 "conf" (only_file "conf" dir)) = inl OSError
  /\ fst (save_to_file 4300 defaults "conf" (only_file "conf" dir)) = inl OSError
  /\ fst (load_from_file 4300 "scan.json" (fun _ => no_file)) = inl OSError.
Proof. repeat split. Qed.

(** X3, witness: a seed of 4301 digits cannot be encoded under the digit
    bound 4300; saving it over a file that held a configuration empties the
    file. *)
Lemma failed_save_witness :
  let c := assign_fields [("seed", PInt (10 ^ 4300))] in
  let fs : filesystem :=
    only_file "scan.json"
      (regular_file (Text (Document (JObject [("target_port", JInt 80)])))
                    true true) in
  accepted 4300 c
  /\ open_w fs "scan.json" <> None
  /\ to_json 4300 c = inl ValueError
  /\ load_from_file 4300 "scan.json" fs
     = (inr (assign_fields [("target_port", PInt 80)]), fs)
  /\ exists fs' : filesystem,
       save_to_file 4300 c "scan.json" fs = (inl (Raised ValueError), fs')
       /\ kind (fs' "scan.json") = Regular (Text empty_text)
       /\ load_from_file 4300 "scan.json" fs'
          = (inl (Raised JSONDecodeError), fs').
Proof.
  intros c fs.
  assert (Ho : open_w fs "scan.json" <> None) by discriminate.
  assert (He : to_json 4300 c = inl ValueError) by (vm_compute; reflexivity).
  split; [reflexivity |]. split; [exact Ho |]. split; [exact He |].
  split; [reflexivity |].
  exact (failed_save_leaves_empty_file 4300 c "scan.json" fs ValueError Ho He).
Defined.

(** X5, witness: a gateway MAC of six octets. *)
Lemma accepted_mac_shape_witness :
  let c := assign_fields [("gateway_mac", PStr "AA:BB:CC:DD:EE:FF")] in
  accepted 4300 c
  /\ gateway_mac c = PStr "AA:BB:CC:DD:EE:FF"
  /\ exists t : string,
       ("AA:BB:CC:DD:EE:FF" = t \/ "AA:BB:CC:DD:EE:FF" = (t ++ String LF "")%string)
       /\ String.length t = 17%nat
       /\ str_forallb (fun ch => is_hex ch || is_sep ch) t = true.
Proof.
  intros c. split; [reflexivity |]. split; [reflexivity |].
  exact (accepted_mac_shape 4300 c "AA:BB:CC:DD:EE:FF" eq_refl
           (or_introl eq_refl)).
Defined.

(** X6, witness: two entries in either order. *)
Lemma from_dict_ignores_order_witness :
  let d := [(KStr "rate", PInt 1000); (KStr "target_port", PInt 80)] in
  let d' := [(KStr "target_port", PInt 80); (KStr "rate", PInt 1000)] in
  NoDup (map fst d)
  /\ Permutation d d'
  /\ from_dict 4300 (PDict d) = from_dict 4300 (PDict d').
Proof.
  intros d d'.
  assert (Hn : NoDup (map fst d)).
  { repeat (constructor; [cbn; intuition discriminate |]). constructor. }
  assert (Hp : Permutation d d') by apply perm_swap.
  split; [exact Hn |]. split; [exact Hp |].
  exact (from_dict_ignores_order 4300 d d' Hn Hp).
Defined.


(** * Properties of the synchronous scan *)

Module ApiProperties.

Import Api.

Lemma assoc_kw_set (kw : list (string * pyval)) (k k' : string) (v : pyval) :
  assoc k (kw_set kw k' v) = if String.eqb k k' then Some v else assoc k kw.
Proof.
  induction kw as [| [k0 v0] kw IH]; cbn [kw_set assoc].
  - reflexivity.
  - destruct (String.eqb k' k0) eqn:E0; cbn [assoc].
    + apply String.eqb_eq in E0. subst k0.
      now destruct (String.eqb k k').
    + rewrite IH. destruct (String.eqb k k0) eqn:E; [| reflexivity].
      apply String.eqb_eq in E. subst k0.
      destruct (String.eqb k k') eqn:E'; [| reflexivity].
      apply String.eqb_eq in E'. subst k'.
      rewrite String.eqb_refl in E0. discriminate.
Qed.

Lemma kw_set_keys (kw : list (string * pyval)) (k : string) (v : pyval) :
  map fst (kw_set kw k v)
  = if existsb (String.eqb k) (map fst kw) then map fst kw
    else map fst kw ++ [k].
Proof.
  induction kw as [| [k0 v0] kw IH]; cbn [kw_set map fst existsb app];
    [reflexivity |].
  destruct (String.eqb k k0); cbn [map fst orb]; [reflexivity |].
  rewrite IH. now destruct (existsb _ _).
Qed.

Lemma kw_set_NoDup (kw : list (string * pyval)) (k : string) (v : pyval) :
  NoDup (map fst kw) -> NoDup (map fst (kw_set kw k v)).
Proof.
  intros H. rewrite kw_set_keys.
  destruct (existsb (String.eqb k) (map fst kw)) eqn:E; [assumption |].
  apply (Permutation_NoDup (Permutation_cons_append (map fst kw) k)).
  constructor; [| assumption]. intros Hin.
  assert (existsb (String.eqb k) (map fst kw) = true); [| congruence].
  apply existsb_exists. exists k. split; [assumption | apply String.eqb_refl].
Qed.

Lemma In_kw_set (kw : list (string * pyval)) (k k' : string) (v v' : pyval) :
  In (k, v) (kw_set kw k' v') -> In (k, v) kw \/ v = v'.
Proof.
  induction kw as [| [k0 v0] kw IH]; cbn [kw_set].
  - intros [H | []]. inversion H. now right.
  - destruct (String.eqb k' k0).
    + intros [H | H]; [inversion H; now right | left; now right].
    + intros [H | H]; [left; now left |].
      destruct (IH H); [left; now right | now right].
Qed.

Lemma assoc_filter_gen (p : string * pyval -> bool) (k : string)
    (l : list (string * pyval)) :
  NoDup (map fst l) ->
  assoc k (filter p l)
  = match assoc k l with
    | Some v => if p (k, v) then Some v else None
    | None => None
    end.
Proof.
  induction l as [| [k' v'] l IH]; cbn [filter assoc map fst]; [reflexivity |].
  intros Hnd. inversion Hnd as [| ? ? Hk Hl]; subst.
  destruct (String.eqb k k') eqn:E.
  - apply String.eqb_eq in E. subst k'.
    destruct (p (k, v')); cbn [assoc]; [now rewrite String.eqb_refl |].
    apply assoc_None_not_In. intros Hin. apply Hk.
    apply in_map_iff in Hin. destruct Hin as [x [<- Hx]].
    apply filter_In in Hx. apply in_map. tauto.
  - destruct (p (k', v')); cbn [assoc]; [rewrite E |]; auto.
Qed.

Lemma dict_NoDup (r : ScanRequest.t) : NoDup (map fst (ScanRequest.dict r)).
Proof.
  cbn. repeat (constructor; [cbn; intuition discriminate |]). constructor.
Qed.

(** The dictionary built by lines 176-179, for any output file. *)
Lemma params_entries (r : ScanRequest.t) (path : string) :
  NoDup (map fst (params r path))
  /\ (forall k v, In (k, v) (params r path) -> v <> PNone)
  /\ assoc "return_results" (params r path) = None
  /\ assoc "output_file" (params r path) = Some (PStr path)
  /\ (forall k : string,
        k <> "output_file" -> k <> "return_results" ->
        assoc k (params r path)
        = match assoc k (ScanRequest.dict r) with
          | Some PNone => None
          | found => found
          end).
Proof.
  unfold params. split; [| split; [| split; [| split]]].
  - apply kw_set_NoDup, NoDup_names_filter, dict_NoDup.
  - intros k v Hin. destruct (In_kw_set _ _ _ _ _ Hin) as [H | ->];
      [| discriminate].
    apply filter_In in H. destruct H as [_ H]. cbn [snd] in H.
    apply andb_true_iff in H. destruct H as [H _]. intros ->. discriminate.
  - rewrite assoc_kw_set. cbn [String.eqb Ascii.eqb Bool.eqb].
    rewrite assoc_filter_gen by apply dict_NoDup.
    destruct (assoc "return_results" (ScanRequest.dict r)); [| reflexivity].
    cbn [fst snd]. rewrite String.eqb_refl. now rewrite andb_false_r.
  - rewrite assoc_kw_set. now rewrite String.eqb_refl.
  - intros k Ho Hr. rewrite assoc_kw_set.
    destruct (String.eqb k "output_file") eqn:E;
      [apply String.eqb_eq in E; contradiction |].
    rewrite assoc_filter_gen by apply dict_NoDup.
    destruct (assoc k (ScanRequest.dict r)) as [v |]; [| reflexivity].
    cbn [fst snd].
    destruct (String.eqb k "return_results") eqn:E';
      [apply String.eqb_eq in E'; contradiction |].
    cbn [negb]. rewrite andb_true_r. now destruct v.
Qed.

Section Handlers.

Variable E : Type.
Variable is_Exception : E -> bool.
Variable str : E -> E + string.
Variable mkstemp : string -> string -> E + (Z * string).
Variable os_close : Z -> option E.
Variable zmap_scan : list (string * pyval) -> E + pyval.
Variable validate_ips_found : pyval -> E + option (list string).

Local Notation "'in_use'" := (output_file_in_use E mkstemp os_close).
Local Notation "'respond'" :=
  (scan_and_respond E zmap_scan validate_ips_found).
Local Notation "'run'" :=
  (sync_scan E is_Exception str mkstemp os_close zmap_scan validate_ips_found).

(** The three ways in which lines 169-172 end. *)
Lemma output_file_in_use_cases (requested : option string) :
  (exists a s,
      requested = Some (String a s)
      /\ in_use requested = ([], inr (String a s)))
  \/ ((requested = None \/ requested = Some "")
      /\ ((exists e,
              mkstemp "zmap_api_" ".txt" = inl e
              /\ in_use requested = ([Mkstemp "zmap_api_" ".txt"], inl e))
          \/ (exists fd path e,
                mkstemp "zmap_api_" ".txt" = inr (fd, path)
                /\ os_close fd = Some e
                /\ in_use requested
                   = ([Mkstemp "zmap_api_" ".txt"; OsClose fd], inl e))
          \/ (exists fd path,
                mkstemp "zmap_api_" ".txt" = inr (fd, path)
                /\ os_close fd = None
                /\ in_use requested
                   = ([Mkstemp "zmap_api_" ".txt"; OsClose fd], inr path)))).
Proof.
  assert (Hmk : forall requested : option string,
             requested = None \/ requested = Some "" ->
             in_use requested
             = match mkstemp "zmap_api_" ".txt" with
               | inl e => ([Mkstemp "zmap_api_" ".txt"], inl e)
               | inr (temp_fd, path) =>
                   ([Mkstemp "zmap_api_" ".txt"; OsClose temp_fd],
                    match os_close temp_fd with
                    | Some e => inl e
                    | None => inr path
                    end)
               end).
  { intros q [-> | ->]; reflexivity. }
  destruct requested as [[| a s] |].
  - right. split; [now right |]. rewrite Hmk by now right.
    destruct (mkstemp "zmap_api_" ".txt") as [e | [fd path]]; [left; eauto |].
    right. destruct (os_close fd) as [e |] eqn:Ec.
    + left. exists fd, path, e. auto.
    + right. exists fd, path. auto.
  - left. exists a, s. split; reflexivity.
  - right. split; [now left |]. rewrite Hmk by now left.
    destruct (mkstemp "zmap_api_" ".txt") as [e | [fd path]]; [left; eauto |].
    right. destruct (os_close fd) as [e |] eqn:Ec.
    + left. exists fd, path, e. auto.
    + right. exists fd, path. auto.
Qed.

(** No scan is among the calls of lines 169-172. *)
Lemma output_file_in_use_calls (requested : option string) (kw : list (string * pyval)) :
  ~ In (Scan kw) (fst (in_use requested)).
Proof.
  destruct (output_file_in_use_cases requested)
    as [[a [s [_ ->]]] | [_ [[e [_ ->]] | [[fd [path [e [_ [_ ->]]]]]
                                          | [fd [path [_ [_ ->]]]]]]]];
    cbn; intuition discriminate.
Qed.

Lemma sync_scan_with_file (r : ScanRequest.t) (before : list event)
    (path : string) :
  in_use (ScanRequest.output_file r) = (before, inr path) ->
  run r = (before ++ [Scan (params r path)],
           match respond (params r path) with
           | inr response => Returned response
           | inl e => handle_exception E is_Exception str e
           end).
Proof. unfold sync_scan. intros ->. reflexivity. Qed.

Lemma sync_scan_without_file (r : ScanRequest.t) (before : list event) (e : E) :
  in_use (ScanRequest.output_file r) = (before, inl e) ->
  run r = (before, Escaped e).
Proof. unfold sync_scan. intros ->. reflexivity. Qed.

(** X8.  The keyword arguments that [sync_scan] hands to [scan].  Once
    lines 169-172 have settled the output file (the one of the request when
    it names one, the temporary file that [mkstemp] made and [os.close]
    closed otherwise), the handler makes exactly one call of [scan], its
    last call, and the arguments of that call have distinct names, bind
    nothing to [None], do not include [return_results], bind [output_file]
    to the file in use, and hold every other field of the request exactly
    when it is set, with its value. *)
Theorem scan_keyword_arguments (r : ScanRequest.t) (before : list event)
    (path : string) :
  in_use (ScanRequest.output_file r) = (before, inr path) ->
  let kwargs := params r path in
  fst (run r) = before ++ [Scan kwargs]
  /\ (forall kw, In (Scan kw) (fst (run r)) -> kw = kwargs)
  /\ (ScanRequest.output_file r = Some path /\ path <> ""
      \/ (ScanRequest.output_file r = None
          \/ ScanRequest.output_file r = Some "")
         /\ exists fd,
              mkstemp "zmap_api_" ".txt" = inr (fd, path)
              /\ os_close fd = None)
  /\ NoDup (map fst kwargs)
  /\ (forall k v, In (k, v) kwargs -> v <> PNone)
  /\ assoc "return_results" kwargs = None
  /\ assoc "output_file" kwargs = Some (PStr path)
  /\ (forall k : string,
        k <> "output_file" -> k <> "return_results" ->
        assoc k kwargs
        = match assoc k (ScanRequest.dict r) with
          | Some PNone => None
          | found => found
          end).
Proof.
  intros Hin kwargs.
  rewrite (sync_scan_with_file r before path Hin). cbn [fst].
  split; [reflexivity |]. split; [| split; [| exact (params_entries r path)]].
  - intros kw H. apply in_app_or in H. destruct H as [H | [H | []]].
    + exfalso. apply (output_file_in_use_calls (ScanRequest.output_file r) kw).
      now rewrite Hin.
    + now inversion H.
  - destruct (output_file_in_use_cases (ScanRequest.output_file r))
      as [[a [s [Hr Hu]]] | [Hr [[e [_ Hu]] | [[fd [p' [e [_ [_ Hu]]]]]
                                              | [fd [p' [Hm [Hc Hu]]]]]]]];
      rewrite Hu in Hin; inversion Hin; subst.
    + left. split; [assumption | discriminate].
    + right. split; [assumption |]. exists fd. auto.
Qed.

(** X9.  [return_results] changes nothing: whatever its value, [sync_scan]
    makes the same calls with the same arguments and ends the same way. *)
Theorem return_results_is_ignored (r : ScanRequest.t) (b : option bool) :
  run (with_return_results r b) = run r.
Proof.
  assert (Hp : forall path, params (with_return_results r b) path
                            = params r path).
  { intros path. destruct r as [tp sn ofile bl al bw pm rt sd vb rr].
    unfold params. f_equal.
    destruct b as [[|] |], rr as [[|] |]; reflexivity. }
  unfold sync_scan. cbn [with_return_results ScanRequest.output_file].
  destruct (in_use (ScanRequest.output_file r)) as [calls [e | path]];
    [reflexivity |].
  now rewrite Hp.
Qed.

Lemma scan_and_respond_returns (kwargs : list (string * pyval))
    (a : ScanResult.t) :
  respond kwargs = inr a ->
  exists results,
    zmap_scan kwargs = inr results
    /\ validate_ips_found results = inr (ScanResult.ips_found a)
    /\ a = {| ScanResult.scan_id := "direct_scan";
              ScanResult.status := "completed";
              ScanResult.ips_found := ScanResult.ips_found a;
              ScanResult.output_file := None;
              ScanResult.error := None |}.
Proof.
  unfold scan_and_respond.
  destruct (zmap_scan kwargs) as [e | results]; [discriminate |].
  destruct (validate_ips_found results) as [e | ips] eqn:Ev; [discriminate |].
  intros H. inversion H. exists results. cbn. auto.
Qed.

(** X10.  How [sync_scan] ends.  A response that is returned has the scan
    id ["direct_scan"] and the status ["completed"], carries what the
    validation made of the object that [scan] returned, and neither an error
    nor the path of the output file; [scan] was called once, last.  An
    [HTTPException] has status 500 and, as detail, the text of an instance
    of [Exception] raised inside the [try], by [scan] or by the validation of
    its result.  Any other exception escapes: the one of [mkstemp] or of
    [os.close], which run outside the [try] (no scan is made then), an
    exception raised inside the [try] that is no instance of [Exception],
    and the one that [str] raises on the caught exception. *)
Theorem sync_scan_outcomes (r : ScanRequest.t) (calls : list event) :
  (forall a : ScanResult.t,
      run r = (calls, Returned a) ->
      exists before kwargs results,
        calls = before ++ [Scan kwargs]
        /\ (forall kw, ~ In (Scan kw) before)
        /\ zmap_scan kwargs = inr results
        /\ validate_ips_found results = inr (ScanResult.ips_found a)
        /\ a = {| ScanResult.scan_id := "direct_scan";
                  ScanResult.status := "completed";
                  ScanResult.ips_found := ScanResult.ips_found a;
                  ScanResult.output_file := None;
                  ScanResult.error := None |})
  /\ (forall h : HTTPException,
        run r = (calls, Http h) ->
        exists before kwargs e,
          calls = before ++ [Scan kwargs]
          /\ (forall kw, ~ In (Scan kw) before)
          /\ respond kwargs = inl e
          /\ is_Exception e = true
          /\ str e = inr (detail h)
          /\ status_code h = 500)
  /\ (forall e : E,
        run r = (calls, Escaped e) ->
        (mkstemp "zmap_api_" ".txt" = inl e
         /\ calls = [Mkstemp "zmap_api_" ".txt"])
        \/ (exists fd path,
              mkstemp "zmap_api_" ".txt" = inr (fd, path)
              /\ os_close fd = Some e
              /\ calls = [Mkstemp "zmap_api_" ".txt"; OsClose fd])
        \/ (exists before kwargs e0,
              calls = before ++ [Scan kwargs]
              /\ (forall kw, ~ In (Scan kw) before)
              /\ respond kwargs = inl e0
              /\ (is_Exception e0 = false /\ e = e0
                  \/ is_Exception e0 = true /\ str e0 = inl e))).
Proof.
  pose proof (output_file_in_use_calls (ScanRequest.output_file r)) as Hno.
  destruct (in_use (ScanRequest.output_file r)) as [before [e0 | path]] eqn:Hu.
  - rewrite (sync_scan_without_file r before e0 Hu).
    split; [| split]; try (intros x H; discriminate).
    intros e H. inversion H. subst.
    destruct (output_file_in_use_cases (ScanRequest.output_file r))
      as [[a [s [_ Hc]]] | [_ [[e' [Hm Hc]] | [[fd [p' [e' [Hm [Hcl Hc]]]]]
                                              | [fd [p' [_ [_ Hc]]]]]]]];
      rewrite Hc in Hu; inversion Hu; subst.
    + left. auto.
    + right. left. exists fd, p'. auto.
  - rewrite (sync_scan_with_file r before path Hu). cbn [fst] in Hno.
    destruct (respond (params r path)) as [e0 | a0] eqn:Er.
    + unfold handle_exception.
      destruct (is_Exception e0) eqn:Ei; [destruct (str e0) as [e1 | text] eqn:Es |].
      * split; [| split]; try (intros x H; discriminate).
        intros e H. inversion H. subst. right. right.
        exists before, (params r path), e0. repeat split; auto.
      * split; [| split]; try (intros x H; discriminate).
        intros h H. inversion H. subst.
        exists before, (params r path), e0. repeat split; auto.
      * split; [| split]; try (intros x H; discriminate).
        intros e H. inversion H. subst. right. right.
        exists before, (params r path), e. repeat split; auto.
    + split; [| split]; try (intros x H; discriminate).
      intros a H. inversion H. subst.
      destruct (scan_and_respond_returns _ _ Er) as [results [Hs [Hv Ha]]].
      exists before, (params r path), results. auto.
Qed.

End Handlers.

(** X8, witness: a request for port 80 that names no output file; the
    temporary file is made and closed, and its path is passed to [scan]. *)
Lemma scan_keyword_arguments_witness :
  let r := {| ScanRequest.target_port := Some 80;
              ScanRequest.subnets := None;
              ScanRequest.output_file := None;
              ScanRequest.blocklist_file := None;
              ScanRequest.allowlist_file := None;
              ScanRequest.bandwidth := None;
              ScanRequest.probe_module := None;
              ScanRequest.rate := None;
              ScanRequest.seed := None;
              ScanRequest.verbosity := None;
              ScanRequest.return_results := Some false |} in
  let is_Exception := fun _ : string => true in
  let str := fun e : string => @inr string string e in
  let mkstemp := fun _ _ : string =>
                   @inr string (Z * string) (3, "/tmp/zmap_api_k3.txt") in
  let os_close := fun _ : Z => @None string in
  let zmap_scan := fun _ : list (string * pyval) =>
                     @inr string pyval (PList [PStr "192.0.2.7"]) in
  let validate := fun _ : pyval =>
                    @inr string (option (list string)) (Some ["192.0.2.7"]) in
  output_file_in_use string mkstemp os_close (ScanRequest.output_file r)
  = ([Mkstemp "zmap_api_" ".txt"; OsClose 3], inr "/tmp/zmap_api_k3.txt")
  /\ fst (sync_scan string is_Exception str mkstemp os_close zmap_scan validate r)
     = [ Mkstemp "zmap_api_" ".txt"; OsClose 3;
         Scan [ ("target_port", PInt 80);
                ("output_file", PStr "/tmp/zmap_api_k3.txt") ] ]
  /\ assoc "output_file" (params r "/tmp/zmap_api_k3.txt")
     = Some (PStr "/tmp/zmap_api_k3.txt").
Proof.
  intros r is_Exception str mkstemp os_close zmap_scan validate.
  assert (Hu : output_file_in_use string mkstemp os_close
                 (ScanRequest.output_file r)
               = ([Mkstemp "zmap_api_" ".txt"; OsClose 3],
                  inr "/tmp/zmap_api_k3.txt")) by reflexivity.
  destruct (scan_keyword_arguments string is_Exception str mkstemp os_close
              zmap_scan validate r _ _ Hu)
    as [Hcalls [_ [_ [_ [_ [_ [Hout _]]]]]]].
  split; [exact Hu |]. split; [exact Hcalls | exact Hout].
Defined.

End ApiProperties.
